(** * TSTS: time signal to frequency spectrum

    A shallow embedding of [TSTS.py].  The program is a small numpy
    pipeline (range mask, optional zero padding, window, FFT, positive
    frequency mask) driven by a matplotlib event loop that keeps its
    session in module globals.

    Number model.  numpy's float64 values are modelled as real numbers
    [R]: rounding is not modelled, and the dataset is assumed to hold
    finite values.  Two places are kept at their float64 value, because
    there float64 and the reals differ in more than the last digits.
    The bin spacing of [np.fft.fftfreq] can be a division by zero; the
    IEEE results (inf, nan) are modelled by the type [xreal], also in
    the axis limits computed from them.  The two end weights of
    [np.blackman] are 0 over the reals and negative in float64; they are
    evaluated in binary64.  Array lengths and the padding count are
    natural numbers. *)

From Stdlib Require Import Reals Lra Lia List Sorted ZArith Bool Ascii String Psatz.
From Stdlib Require Floats.
Import ListNotations.

Open Scope R_scope.

(** ** Exceptions and results *)

Inductive exn : Type :=
| IndexError
| ValueError.

(** A computation returns a value or raises; what it raises is an
    exception for a function, and for a handler an exception together
    with the session as the exception leaves it. *)
Inductive result (E A : Type) : Type :=
| Ok (a : A)
| Raise (e : E).

Arguments Ok {E A} a.
Arguments Raise {E A} e.

Definition bind {E A B : Type} (m : result E A) (k : A -> result E B) : result E B :=
  match m with
  | Ok a => k a
  | Raise e => Raise e
  end.

(** ** Binary64

    The real number that a finite float64 stands for, and the one
    float64 computation the model keeps: the end weight of
    [np.blackman], [0.42 + 0.5*c1 + 0.08*c2] with [c1 = cos(-pi) = -1.0]
    and [c2 = cos(-2 pi) = 1.0] as float64 gives them.  The constants
    0.42 and 0.08 are written as the binary64 values nearest to them. *)

Module Float64.
Import Floats.

Definition value (f : float) : R :=
  match Prim2SF f with
  | S754_finite s m e => (if s then -1 else 1) * IZR (Zpos m) * powerRZ 2 e
  | _ => 0
  end.

Definition blackman_end : float :=
  ((0x1.ae147ae147ae1p-2 + 0.5 * (-1)) + 0x1.47ae147ae147bp-4 * 1)%float.

End Float64.

(** ** The numpy routines the program calls

    None of these is code of the program; each is written after numpy's
    reference implementation, restricted to the one-dimensional calls the
    program makes. *)

Module Numpy.

(** Comparison of two float64 values, as a boolean. *)
Definition Rltb (a b : R) : bool := if Rlt_dec a b then true else false.

(** [a > c] and [a < c] of an array against a scalar. *)
Definition greater (a : list R) (c : R) : list bool := map (fun x => Rltb c x) a.
Definition less (a : list R) (c : R) : list bool := map (fun x => Rltb x c) a.

(** [m1 & m2] on boolean arrays of one shape. *)
Fixpoint logical_and (m1 m2 : list bool) : list bool :=
  match m1, m2 with
  | b1 :: t1, b2 :: t2 => (b1 && b2)%bool :: logical_and t1 t2
  | _, _ => []
  end.

(** [a[mask]]: the entries of [a] at the positions where [mask] holds. *)
Fixpoint compress {A : Type} (mask : list bool) (a : list A) : list A :=
  match mask, a with
  | b :: mt, x :: at_ => if b then x :: compress mt at_ else compress mt at_
  | _, _ => []
  end.

Definition ones (n : nat) : list R := repeat 1 n.

(** [np.min(a)] and [np.max(a)] of a non-empty array. *)
Definition amin (a : list R) : R :=
  match a with
  | [] => 0
  | x :: t => fold_left Rmin t x
  end.

Definition amax (a : list R) : R :=
  match a with
  | [] => 0
  | x :: t => fold_left Rmax t x
  end.

(** [a * b] on arrays of one shape. *)
Fixpoint multiply (a b : list R) : list R :=
  match a, b with
  | x :: a', y :: b' => x * y :: multiply a' b'
  | _, _ => []
  end.

(** *** Values that may leave the finite range

    A float64 that is either finite or one of the IEEE specials.  Only
    the frequency axis needs it. *)
Inductive xreal : Type :=
| Fin (r : R)
| PInf
| NInf
| NaN.

(** [1.0 / x] for a finite [x]; a zero [x] is the positive zero that a
    difference of equal values produces, so the quotient is [+inf]. *)
Definition xrecip (x : R) : xreal :=
  if Req_EM_T x 0 then PInf else Fin (1 / x).

(** [k * v] for an integer [k]. *)
Definition xscale (k : Z) (v : xreal) : xreal :=
  match v with
  | Fin r => Fin (IZR k * r)
  | PInf => if (k =? 0)%Z then NaN else if (0 <? k)%Z then PInf else NInf
  | NInf => if (k =? 0)%Z then NaN else if (0 <? k)%Z then NInf else PInf
  | NaN => NaN
  end.

(** [v > 0]. *)
Definition xgreater0 (v : xreal) : bool :=
  match v with
  | Fin r => Rltb 0 r
  | PInf => true
  | NInf | NaN => false
  end.

(** [v / c] for a finite positive constant [c]. *)
Definition xdivide (v : xreal) (c : R) : xreal :=
  match v with
  | Fin r => Fin (r / c)
  | PInf => PInf
  | NInf => NInf
  | NaN => NaN
  end.

(** [min] and [max] of two such values; a nan wins. *)
Definition xmin2 (a b : xreal) : xreal :=
  match a, b with
  | NaN, _ | _, NaN => NaN
  | NInf, _ | _, NInf => NInf
  | PInf, v | v, PInf => v
  | Fin x, Fin y => Fin (Rmin x y)
  end.

Definition xmax2 (a b : xreal) : xreal :=
  match a, b with
  | NaN, _ | _, NaN => NaN
  | PInf, _ | _, PInf => PInf
  | NInf, v | v, NInf => v
  | Fin x, Fin y => Fin (Rmax x y)
  end.

(** [np.min(a)] and [np.max(a)] of a non-empty array of such values. *)
Definition xamin (a : list xreal) : xreal :=
  match a with
  | [] => NaN
  | x :: t => fold_left xmin2 t x
  end.

Definition xamax (a : list xreal) : xreal :=
  match a with
  | [] => NaN
  | x :: t => fold_left xmax2 t x
  end.

(** [a + b] and [a - b]. *)
Definition xadd (a b : xreal) : xreal :=
  match a, b with
  | NaN, _ | _, NaN => NaN
  | PInf, NInf | NInf, PInf => NaN
  | PInf, _ | _, PInf => PInf
  | NInf, _ | _, NInf => NInf
  | Fin x, Fin y => Fin (x + y)
  end.

Definition xopp (a : xreal) : xreal :=
  match a with
  | Fin x => Fin (- x)
  | PInf => NInf
  | NInf => PInf
  | NaN => NaN
  end.

Definition xsub (a b : xreal) : xreal := xadd a (xopp b).

(** [c * v] for a finite [c]. *)
Definition xtimes (c : R) (v : xreal) : xreal :=
  match v with
  | Fin x => Fin (c * x)
  | NaN => NaN
  | PInf =>
      if Req_EM_T c 0 then NaN else if Rlt_dec 0 c then PInf else NInf
  | NInf =>
      if Req_EM_T c 0 then NaN else if Rlt_dec 0 c then NInf else PInf
  end.

(** *** [np.fft.fftfreq(n, d)]

    The integer bins [0, 1, ..., (n-1)//2, -(n//2), ..., -1], each
    multiplied by [val = 1.0/(n*d)]. *)
Definition fftfreq_bins (n : nat) : list Z :=
  map Z.of_nat (seq 0 ((n - 1) / 2 + 1))
  ++ map (fun i => (Z.of_nat i - Z.of_nat (n / 2))%Z) (seq 0 (n / 2)).

Definition fftfreq (n : nat) (d : R) : list xreal :=
  let val := xrecip (INR n * d) in
  map (fun k => xscale k val) (fftfreq_bins n).

(** *** [np.fft.fft] and [abs]

    Complex numbers are pairs (real part, imaginary part).  Bin [k] of
    the transform of [a] is the sum over [m] of
    [a[m] * exp(-2 pi i m k / n)]. *)
Definition complex : Type := (R * R)%type.

Definition cadd (z w : complex) : complex := (fst z + fst w, snd z + snd w).

Definition twiddle (n k m : nat) (x : R) : complex :=
  let angle := 2 * PI * INR m * INR k / INR n in
  (x * cos angle, - (x * sin angle)).

Fixpoint dft_sum (n k m : nat) (a : list R) : complex :=
  match a with
  | [] => (0, 0)
  | x :: a' => cadd (twiddle n k m x) (dft_sum n k (S m) a')
  end.

Definition fft (a : list R) : list complex :=
  map (fun k => dft_sum (List.length a) k 0 a) (seq 0 (List.length a)).

Definition absolute (a : list complex) : list R :=
  map (fun z => sqrt (fst z * fst z + snd z * snd z)) a.

(** *** [np.linspace(start, stop, num, endpoint=False)] *)
Definition linspace (start stop : R) (num : nat) : list R :=
  let step := (stop - start) / INR num in
  map (fun i => INR i * step + start) (seq 0 num).

(** *** [np.pad(a, (0, width), "linear_ramp", end_values=(_, end_value))]

    The right ramp is the reversed [linspace] from the end value to the
    edge value [a[-1]], the edge itself left out.  The left pad has width
    0 and adds nothing.  The program only calls it with a non-empty [a]. *)
Definition pad_linear_ramp (a : list R) (width : nat) (end_value : R) : list R :=
  a ++ rev (linspace end_value (last a 0) width).

(** *** [np.pad(a, (0, width), "constant", constant_values=(_, c))] *)
Definition pad_constant (a : list R) (width : nat) (c : R) : list R :=
  a ++ repeat c width.

(** *** The window functions

    All four share numpy's preamble: an empty array for [M < 1], a single
    one for [M = 1], and otherwise a formula in [n = arange(1-M, M, 2)]. *)
Definition window_arange (M : nat) : list Z :=
  map (fun i => (1 - Z.of_nat M + 2 * Z.of_nat i)%Z) (seq 0 M).

Definition taper (f : R -> R -> R) (M : nat) : list R :=
  match M with
  | O => []
  | S O => ones 1
  | _ => map (fun n => f (IZR n) (INR M - 1)) (window_arange M)
  end.

(** [0.5 + 0.5*cos(pi*n/(M-1))] *)
Definition hanning : nat -> list R :=
  taper (fun n M1 => 5 / 10 + 5 / 10 * cos (PI * n / M1)).

(** [0.42 + 0.5*cos(pi*n/(M-1)) + 0.08*cos(2.0*pi*n/(M-1))].  At the two
    ends, [n = 1-M] and [n = M-1], the cosines are -1.0 and 1.0 and the
    weight is the float64 sum, which is negative. *)
Definition blackman : nat -> list R :=
  taper (fun n M1 =>
           if Req_EM_T (Rabs n) M1 then Float64.value Float64.blackman_end
           else 42 / 100 + 5 / 10 * cos (PI * n / M1)
                + 8 / 100 * cos (2 * PI * n / M1)).

(** [0.54 + 0.46*cos(pi*n/(M-1))] *)
Definition hamming : nat -> list R :=
  taper (fun n M1 => 54 / 100 + 46 / 100 * cos (PI * n / M1)).

(** [where(less_equal(n, 0), 1 + n/(M-1), 1 - n/(M-1))] *)
Definition bartlett : nat -> list R :=
  taper (fun n M1 => if Rle_dec n 0 then 1 + n / M1 else 1 - n / M1).

End Numpy.

(** ** [os.path.splitext]

    Written after CPython's [genericpath._splitext] with the POSIX
    separators: the extension starts at the last dot of the last path
    component, leading dots of that component not counted. *)

Module OsPath.

Open Scope string_scope.

Definition sep : ascii := "/"%char.
Definition extsep : ascii := "."%char.

(** [p.rfind(c)]: the highest index holding [c], [None] for Python's -1. *)
Fixpoint rfind (c : ascii) (p : string) : option nat :=
  match p with
  | EmptyString => None
  | String a p' =>
      match rfind c p' with
      | Some i => Some (S i)
      | None => if Ascii.eqb a c then Some O else None
      end
  end.

(** The [while] loop: is some character in [filenameIndex, dotIndex) not
    a dot?  [steps] is [dotIndex - filenameIndex]. *)
Fixpoint has_non_dot (p : string) (filenameIndex steps : nat) : bool :=
  match steps with
  | O => false
  | S steps' =>
      match String.get filenameIndex p with
      | Some a =>
          if Ascii.eqb a extsep then has_non_dot p (S filenameIndex) steps'
          else true
      | None => true
      end
  end.

Definition splitext (p : string) : string * string :=
  let filenameIndex := match rfind sep p with Some i => S i | None => O end in
  match rfind extsep p with
  | Some dotIndex =>
      if (filenameIndex <=? dotIndex)%nat
         && has_non_dot p filenameIndex (dotIndex - filenameIndex)
      then (substring 0 dotIndex p, substring dotIndex (String.length p - dotIndex) p)
      else (p, "")
  | None => (p, "")
  end.

End OsPath.

(** ** The program *)

Module TSTS.
Import Numpy.

(** A dataset is a two-dimensional array of two columns, one row per
    sample: what [np.genfromtxt] returns for a file of at least two data
    rows.  (For a shorter file it returns a one-dimensional array, on
    which the column slices of [calc_fft] fail; such values are not
    datasets here.) *)
Definition dataset : Type := list (R * R).

Definition column0 (data : dataset) : list R := map fst data.
Definition column1 (data : dataset) : list R := map snd data.

(** *** [zeropadding]

    [num_add = int(2**ceil(log2(len(xs))) - len(xs))].  For a positive
    length the float logarithm and ceiling are taken as exact.  For
    length 0, [log2] is [-inf], the power is 0.0 and [num_add] is 0. *)
Definition num_add (len : nat) : nat :=
  match len with
  | O => O
  | _ => 2 ^ Nat.log2_up len - len
  end.

(** [xs[-1]], an [IndexError] on an empty array. *)
Definition last_item (xs : list R) : result exn R :=
  match xs with
  | [] => Raise IndexError
  | _ => Ok (last xs 0)
  end.

Definition zeropadding (xs ys : list R) : result exn (list R * list R) :=
  let n := num_add (List.length xs) in
  let dt := if (1 <? List.length xs)%nat then nth 1 xs 0 - nth 0 xs 0 else 0 in
  bind (last_item xs) (fun xlast =>
    let xs' := pad_linear_ramp xs n (xlast + INR n * dt) in
    let ys' := pad_constant ys n 0 in
    Ok (xs', ys')).

(** *** [calc_range]

    The axis limits for an array of finite values; [margin] defaults to
    0.1 at the call sites that leave it out. *)
Definition calc_range (ys : list R) (margin : R) : R * R :=
  match ys with
  | [] => (0, 1)
  | _ =>
      let ymin := amin ys in
      let ymax := amax ys in
      let ydiff := ymax - ymin in
      (ymin - margin * ydiff, ymax + margin * ydiff)
  end.

(** *** [calc_window] *)
Definition functions : list (string * (nat -> list R)) :=
  [ ("hanning"%string, hanning);
    ("blackman"%string, blackman);
    ("hamming"%string, hamming);
    ("bartlett"%string, bartlett) ].

Fixpoint lookup {V : Type} (key : string) (d : list (string * V)) : option V :=
  match d with
  | [] => None
  | (k, v) :: d' => if String.eqb key k then Some v else lookup key d'
  end.

Definition calc_window (windowtype : string) (ys : list R) : list R :=
  match lookup windowtype functions with
  | Some f => f (List.length ys)
  | None => ones (List.length ys)
  end.

(** *** [calc_fft] *)

(** Lines 58-62: the mask and the two masked columns. *)
Definition range_mask (time_xs : list R) (fft_range : R * R) : list bool :=
  let '(fft_min, fft_max) := fft_range in
  logical_and (greater time_xs fft_min) (less time_xs fft_max).

Definition range_filter (data : dataset) (fft_range : R * R) : list R * list R :=
  let time_xs := column0 data in
  let time_ys := column1 data in
  let mask := range_mask time_xs fft_range in
  (compress mask time_xs, compress mask time_ys).

(** Python's [min] and [max] over a non-empty array. *)
Definition py_min (xs : list R) : R :=
  match xs with
  | [] => 0
  | x :: t => fold_left Rmin t x
  end.

Definition py_max (xs : list R) : R :=
  match xs with
  | [] => 0
  | x :: t => fold_left Rmax t x
  end.

Definition fft_output : Type :=
  (list R * list R * list xreal * list R)%type.

(** Lines 69-80: the spectrum of the selected (and padded) samples. *)
Definition spectrum (xs ys window : list R) : list xreal * list R :=
  let N := List.length xs in
  match N with
  | O => ([], [])
  | _ =>
      let spec_xs := fftfreq N ((py_min xs - py_max xs) / INR N) in
      let spec_ys := fft (multiply ys window) in
      let mask := map xgreater0 spec_xs in
      (compress mask spec_xs, absolute (compress mask spec_ys))
  end.

Definition calc_fft (data : option dataset) (fft_range : R * R)
    (windowtype : string) (zeropad : bool) : result exn fft_output :=
  match data with
  | None => Ok ([], [], [], [])
  | Some data =>
      let time_xs := column0 data in
      let time_ys := column1 data in
      let '(xs, ys) := range_filter data fft_range in
      bind (if zeropad then zeropadding xs ys else Ok (xs, ys)) (fun '(xs, ys) =>
        let window := calc_window windowtype ys in
        let '(spec_xs, spec_ys) := spectrum xs ys window in
        Ok (time_xs, time_ys, spec_xs, spec_ys))
  end.

(** [calc_range] on an array that may hold infinite values, as the
    frequency axis can. *)
Definition xcalc_range (ys : list xreal) (margin : R) : xreal * xreal :=
  match ys with
  | [] => (Fin 0, Fin 1)
  | _ =>
      let ymin := xamin ys in
      let ymax := xamax ys in
      let ydiff := xsub ymax ymin in
      (xsub ymin (xtimes margin ydiff), xadd ymax (xtimes margin ydiff))
  end.

(** [Axes.set_xlim] and [Axes.set_ylim] of matplotlib refuse a limit that
    is nan or infinite with a [ValueError]; what they make of two equal
    limits is not modelled, the limits are kept as requested. *)
Definition set_lim (lim : xreal * xreal) : result exn (R * R) :=
  match lim with
  | (Fin lo, Fin hi) => Ok (lo, hi)
  | _ => Raise ValueError
  end.

(** *** The session

    The module globals and the widget values that the handlers read and
    write, and the limits last requested of the two axes.  [spec_data] is
    one array object: [save_data] receives that object, not a copy. *)
Record session : Type := mkSession {
  data : option dataset;
  filename : string;
  fft_range : R * R;
  spec_data : list (xreal * R);
  window_button : string;
  zeropad_button : bool;
  rescale_button : bool;
  span_visible : bool;
  ax0_line : list R * list R;
  ax1_line : list xreal * list R;
  closed : bool;
  ax0_xlim : R * R;
  ax0_ylim : R * R;
  ax1_xlim : R * R;
  ax1_ylim : R * R
}.

(** What the environment answers when a key opens a dialog: the dataset
    and the name that [get_file] hands back (a file that
    [np.genfromtxt] cannot read is not modelled), or the name chosen for
    the figure; and, for the figure, the exception with which
    [plt.savefig] refuses that name, if it does. *)
Record dialog : Type := mkDialog {
  chosen_data : option dataset;
  chosen_name : string;
  figure_error : option exn
}.

(** The arguments of one [np.savetxt] call. *)
Record savetxt_call : Type := mkSavetxt {
  path : string;
  rows : list (xreal * R);
  header : string;
  delimiter : string
}.

Inductive effect : Type :=
| Savetxt (c : savetxt_call)
| Savefig (fname : string).

(** A handler returns, or raises and leaves the session as it is at that
    point: the globals and widgets written before the exception stay
    written. *)
Definition handled (A : Type) : Type := result (exn * session) A.

Definition raise_in {A : Type} (st : session) (r : result exn A) : handled A :=
  match r with
  | Ok a => Ok a
  | Raise e => Raise (e, st)
  end.

Definition set_fft_range (r : R * R) (st : session) : session :=
  mkSession (data st) (filename st) r (spec_data st)
    (window_button st) (zeropad_button st) (rescale_button st)
    (span_visible st) (ax0_line st) (ax1_line st) (closed st)
    (ax0_xlim st) (ax0_ylim st) (ax1_xlim st) (ax1_ylim st).

Definition set_file (d : dialog) (st : session) : session :=
  mkSession (chosen_data d) (chosen_name d) (fft_range st) (spec_data st)
    (window_button st) (zeropad_button st) (rescale_button st)
    (span_visible st) (ax0_line st) (ax1_line st) (closed st)
    (ax0_xlim st) (ax0_ylim st) (ax1_xlim st) (ax1_ylim st).

Definition set_filename (f : string) (st : session) : session :=
  mkSession (data st) f (fft_range st) (spec_data st)
    (window_button st) (zeropad_button st) (rescale_button st)
    (span_visible st) (ax0_line st) (ax1_line st) (closed st)
    (ax0_xlim st) (ax0_ylim st) (ax1_xlim st) (ax1_ylim st).

Definition set_spec_data (a : list (xreal * R)) (st : session) : session :=
  mkSession (data st) (filename st) (fft_range st) a
    (window_button st) (zeropad_button st) (rescale_button st)
    (span_visible st) (ax0_line st) (ax1_line st) (closed st)
    (ax0_xlim st) (ax0_ylim st) (ax1_xlim st) (ax1_ylim st).

Definition set_span_visible (b : bool) (st : session) : session :=
  mkSession (data st) (filename st) (fft_range st) (spec_data st)
    (window_button st) (zeropad_button st) (rescale_button st)
    b (ax0_line st) (ax1_line st) (closed st)
    (ax0_xlim st) (ax0_ylim st) (ax1_xlim st) (ax1_ylim st).

Definition set_closed (st : session) : session :=
  mkSession (data st) (filename st) (fft_range st) (spec_data st)
    (window_button st) (zeropad_button st) (rescale_button st)
    (span_visible st) (ax0_line st) (ax1_line st) true
    (ax0_xlim st) (ax0_ylim st) (ax1_xlim st) (ax1_ylim st).


Definition set_zeropad_button (b : bool) (st : session) : session :=
  mkSession (data st) (filename st) (fft_range st) (spec_data st)
    (window_button st) b (rescale_button st)
    (span_visible st) (ax0_line st) (ax1_line st) (closed st)
    (ax0_xlim st) (ax0_ylim st) (ax1_xlim st) (ax1_ylim st).


(** Lines 145-148: the stored spectrum and the two plotted lines. *)
Definition set_spectrum (a : list (xreal * R)) (line0 : list R * list R)
    (line1 : list xreal * list R) (st : session) : session :=
  mkSession (data st) (filename st) (fft_range st) a
    (window_button st) (zeropad_button st) (rescale_button st)
    (span_visible st) line0 line1 (closed st)
    (ax0_xlim st) (ax0_ylim st) (ax1_xlim st) (ax1_ylim st).

Definition set_ax0_limits (xlim ylim : R * R) (st : session) : session :=
  mkSession (data st) (filename st) (fft_range st) (spec_data st)
    (window_button st) (zeropad_button st) (rescale_button st)
    (span_visible st) (ax0_line st) (ax1_line st) (closed st)
    xlim ylim (ax1_xlim st) (ax1_ylim st).

Definition set_ax1_limits (xlim ylim : R * R) (st : session) : session :=
  mkSession (data st) (filename st) (fft_range st) (spec_data st)
    (window_button st) (zeropad_button st) (rescale_button st)
    (span_visible st) (ax0_line st) (ax1_line st) (closed st)
    (ax0_xlim st) (ax0_ylim st) xlim ylim.

(** [update_plot].  The engine may raise before anything is written.
    Then the stored spectrum and the lines are replaced, and, when
    rescaling is on or forced, the four limits are set in the order of
    lines 151-155; the limits of the frequency axis are refused when a
    frequency is infinite.  The title and the redraw request that follow
    write nothing that is read back, and are left out. *)
Definition update_plot (force_rescale : bool) (st : session) : handled session :=
  let window := window_button st in
  let zeropad := zeropad_button st in
  bind (raise_in st (calc_fft (data st) (fft_range st) window zeropad))
    (fun '(xs, ys, spec_xs, spec_ys) =>
       let st1 :=
         set_spectrum (combine spec_xs spec_ys) (xs, ys) (spec_xs, spec_ys) st in
       if (rescale_button st || force_rescale)%bool then
         let st2 := set_ax0_limits (calc_range xs 0) (calc_range ys (1 / 10)) st1 in
         bind (raise_in st2 (set_lim (xcalc_range spec_xs 0)))
           (fun xlim =>
              Ok (set_ax1_limits xlim (calc_range spec_ys (1 / 10)) st2))
       else Ok st1).


Definition click_zeropad (st : session) : handled session :=
  update_plot false (set_zeropad_button (negb (zeropad_button st)) st).


(** [onselect] *)
Definition onselect (xmin xmax : R) (st : session) : handled session :=
  update_plot false (set_fft_range (xmin, xmax) st).

Section Save.

(** How an f-string renders the selection range; float printing is
    not modelled. *)
Variable format_range : R * R -> string.

Definition format_bool (b : bool) : string :=
  if b then "True"%string else "False"%string.

Definition newline : string := String (ascii_of_nat 10) EmptyString.
Definition tab : string := String (ascii_of_nat 9) EmptyString.

(** [data[:,0] /= 1E6] on the array it was handed. *)
Definition scale_column0 (a : list (xreal * R)) : list (xreal * R) :=
  map (fun row => (xdivide (fst row) 1000000, snd row)) a.

(** [save_data] of the main block: the array as it leaves the call,
    and the [np.savetxt] call made. *)
Definition save_data (a : list (xreal * R)) (fname_in : string)
    (range : R * R) (window : string) (zeropad : bool)
    : list (xreal * R) * savetxt_call :=
  let a' := scale_column0 a in
  let header :=
    ("Range of window: " ++ format_range range ++ newline
     ++ "Windowfunction: " ++ window ++ newline
     ++ "Zeropadding: " ++ format_bool zeropad)%string in
  let '(fname, extension) := OsPath.splitext fname_in in
  (a', mkSavetxt (fname ++ "FFT" ++ extension)%string a' header tab).

(** [press]; [d] is what the environment answers if the key opens a
    dialog.  In the save-figure branch the file name of the session is
    reassigned before [plt.savefig] runs. *)
Definition press (key : string) (d : dialog) (st : session)
    : handled (session * list effect) :=
  if String.eqb key "enter" then
    let '(a', call) :=
      save_data (spec_data st) (filename st) (fft_range st)
        (window_button st) (zeropad_button st) in
    Ok (set_spec_data a' st, [Savetxt call])
  else if String.eqb key "esc" then
    Ok (set_closed st, [])
  else if String.eqb key "ctrl+r" then
    bind (onselect 0 0 (set_span_visible false st)) (fun st1 =>
    bind (update_plot true st1) (fun st2 => Ok (st2, [])))
  else if String.eqb key "ctrl+s" then
    let st1 := set_filename (chosen_name d) st in
    match figure_error d with
    | Some e => Raise (e, st1)
    | None => Ok (st1, [Savefig (chosen_name d)])
    end
  else if String.eqb key "ctrl+o" then
    bind (update_plot false (set_file d st)) (fun st1 => Ok (st1, []))
  else Ok (st, []).

End Save.

(** The session a handler leaves behind, returned or raised. *)
Definition session_after (r : handled session) : session :=
  match r with
  | Ok st => st
  | Raise (_, st) => st
  end.

Definition state_after (r : handled (session * list effect)) : session :=
  match r with
  | Ok (st, _) => st
  | Raise (_, st) => st
  end.

(** The globals and widgets as [fft_timesignal] initialises them: window
    "hanning", no padding, rescaling on, no span drawn; the limits are
    set by the first [update_plot]. *)
Definition initial_session (d : dialog) : session :=
  mkSession (chosen_data d) (chosen_name d) (0, 0) []
    "hanning"%string false true false ([], []) ([], []) false
    (0, 1) (0, 1) (0, 1) (0, 1).

(** [fft_timesignal] up to [plt.show()]. *)
Definition fft_timesignal (d : dialog) : handled session :=
  update_plot true (initial_session d).

End TSTS.

(** ** The spec's readings

    Definitions that follow the words of the specification, to be compared
    with the program's. *)

Module Readings.
Import Numpy TSTS.

(** Range Filter: the samples whose time lies strictly between the two
    ends of the selection, in the order of the series. *)
Definition strictly_inside (lo hi : R) (s : R * R) : bool :=
  if Rlt_dec lo (fst s) then (if Rlt_dec (fst s) hi then true else false) else false.

Definition selected (lo hi : R) (data : dataset) : dataset :=
  filter (strictly_inside lo hi) data.

(** Zero-padding: the step [dt] is the difference of the first two
    times, 0 for fewer than two samples. *)
Definition step (xs : list R) : R :=
  match xs with
  | x0 :: x1 :: _ => x1 - x0
  | _ => 0
  end.

(** [m] is the least power of two that is at least [n]. *)
Definition next_power_of_two (n m : nat) : Prop :=
  (exists k, m = 2 ^ k)%nat /\ (n <= m)%nat
  /\ (forall j, n <= 2 ^ j -> m <= 2 ^ j)%nat.

(** Spectrum: a frequency is strictly positive; one frequency lies
    strictly below another. *)
Definition positive (v : xreal) : Prop :=
  match v with
  | Fin r => 0 < r
  | PInf => True
  | NInf | NaN => False
  end.

Definition xlt (a b : xreal) : Prop :=
  match a, b with
  | Fin x, Fin y => x < y
  | Fin _, PInf | NInf, Fin _ | NInf, PInf => True
  | _, _ => False
  end.

Definition finite (v : xreal) : Prop :=
  match v with
  | Fin _ => True
  | _ => False
  end.

Definition strictly_increasing (l : list xreal) : Prop := StronglySorted xlt l.

Definition strictly_decreasing (l : list xreal) : Prop :=
  StronglySorted (fun a b => xlt b a) l.

(** The dataset with every amplitude multiplied by [c]. *)
Definition scale_values (c : R) (data : dataset) : dataset :=
  map (fun s => (fst s, c * snd s)) data.

(** A complex number multiplied by the real [c]. *)
Definition cscale (c : R) (z : complex) : complex := (c * fst z, c * snd z).


(** A character occurs in a text. *)
Definition has_char (c : ascii) (text : string) : Prop :=
  exists i, String.get i text = Some c.

(** Save format: one text occurs inside another. *)
Definition occurs_in (s text : string) : Prop :=
  exists before after, text = (before ++ s ++ after)%string.

End Readings.

(** ** The scenario of the spec

    Five samples at times 0..4 with values 0, 1, 0, -1, 0. *)

Module Scenario.
Import Numpy TSTS.

Definition five_samples : dataset := [(0, 0); (1, 1); (2, 0); (3, -1); (4, 0)].

Definition five_times : list R := [0; 1; 2; 3; 4].
Definition five_values : list R := [0; 1; 0; -1; 0].

(** The file dialog hands back that series under the name "data.csv". *)
Definition loaded : dialog := mkDialog (Some five_samples) "data.csv" None.

(** A dataset read from a file named "sigFFT.png", and a figure saved
    under the name "sig.png". *)
Definition loaded_sigFFT : dialog := mkDialog (Some five_samples) "sigFFT.png" None.
Definition figure_sig : dialog := mkDialog None "sig.png" None.

(** The session of the scenario as a record: range (-1, 5), nothing
    computed yet. *)
Definition selected_session : session :=
  mkSession (Some five_samples) "data.csv" (-1, 5) []
    "hanning" false true true ([], []) ([], []) false
    (0, 1) (0, 1) (0, 1) (0, 1).

(** Three samples recorded at one and the same time, loaded with the
    default settings. *)
Definition same_time_samples : dataset := [(1, 0); (1, 1); (1, 0)].

Definition same_time_session : session :=
  mkSession (Some same_time_samples) "burst.csv" (0, 0) []
    "hanning" false true false ([], []) ([], []) false
    (0, 1) (0, 1) (0, 1) (0, 1).

(** A stand-in for Python's rendering of a range in the header; no
    property below depends on which text it gives. *)
Definition render_range (r : R * R) : string := "(xmin, xmax)".

(** The session once the series is loaded and the span (-1, 5) is drawn. *)
Definition loaded_and_selected : handled session :=
  bind (fft_timesignal loaded) (onselect (-1) 5).

End Scenario.

(** ** Comparisons and masks *)

Section MaskFacts.
Import Numpy TSTS.

Lemma Rltb_true (a b : R) : a < b -> Rltb a b = true.
Proof.
  unfold Rltb; intros H; destruct (Rlt_dec a b); [reflexivity | contradiction].
Qed.

Lemma Rltb_false (a b : R) : ~ a < b -> Rltb a b = false.
Proof.
  unfold Rltb; intros H; destruct (Rlt_dec a b); [contradiction | reflexivity].
Qed.

Lemma Rltb_iff (a b : R) : Rltb a b = true <-> a < b.
Proof.
  unfold Rltb; destruct (Rlt_dec a b); split; intros; try assumption;
    try reflexivity; try discriminate; contradiction.
Qed.

(** Masking a column of the dataset is filtering the rows. *)
Lemma compress_range_mask {B : Type} (f : R * R -> B) (data : dataset) (lo hi : R) :
  compress (range_mask (column0 data) (lo, hi)) (map f data)
  = map f (filter (fun s => Rltb lo (fst s) && Rltb (fst s) hi)%bool data).
Proof.
  unfold range_mask, column0, greater, less.
  induction data as [|s data IH]; simpl; [reflexivity|].
  destruct (Rltb lo (fst s) && Rltb (fst s) hi)%bool; simpl; rewrite IH; reflexivity.
Qed.

End MaskFacts.

(** ** The range filter *)

Module RangeFilter.
Import Numpy TSTS Readings.

Lemma strictly_inside_iff (lo hi : R) (s : R * R) :
  strictly_inside lo hi s = true <-> lo < fst s /\ fst s < hi.
Proof.
  unfold strictly_inside.
  destruct (Rlt_dec lo (fst s)), (Rlt_dec (fst s) hi); split; intros H;
    try tauto; try discriminate.
Qed.

Lemma strictly_inside_mask (lo hi : R) (s : R * R) :
  (Rltb lo (fst s) && Rltb (fst s) hi)%bool = strictly_inside lo hi s.
Proof.
  unfold strictly_inside, Rltb.
  destruct (Rlt_dec lo (fst s)), (Rlt_dec (fst s) hi); reflexivity.
Qed.

Lemma range_filter_selected (data : dataset) (lo hi : R) :
  range_filter data (lo, hi)
  = (column0 (selected lo hi data), column1 (selected lo hi data)).
Proof.
  unfold range_filter, selected.
  unfold column0 at 2, column1 at 1.
  rewrite !compress_range_mask.
  unfold column0, column1.
  rewrite (filter_ext _ _ (strictly_inside_mask lo hi)).
  reflexivity.
Qed.

Lemma selected_empty_range (data : dataset) (lo hi : R) :
  hi <= lo -> selected lo hi data = [].
Proof.
  intros Hle; unfold selected.
  induction data as [|s data IH]; simpl; [reflexivity|].
  destruct (strictly_inside lo hi s) eqn:E; [|exact IH].
  apply strictly_inside_iff in E; lra.
Qed.



End RangeFilter.

(** ** Zero padding *)

Module ZeroPadding.
Import Numpy TSTS Readings.

Lemma num_add_total (n : nat) :
  (1 <= n)%nat -> (n + num_add n = 2 ^ Nat.log2_up n)%nat.
Proof.
  intros Hn. unfold num_add.
  destruct n as [|n]; [lia|].
  pose proof (Nat.log2_log2_up_spec (S n) ltac:(lia)) as [_ Hup].
  lia.
Qed.

Lemma padded_length_is_next_power (n : nat) :
  (1 <= n)%nat -> next_power_of_two n (n + num_add n).
Proof.
  intros Hn. rewrite (num_add_total n Hn).
  split; [exists (Nat.log2_up n); reflexivity|].
  split.
  - apply Nat.log2_log2_up_spec; lia.
  - intros j Hj. apply Nat.pow_le_mono_r; [lia|].
    apply Nat.log2_up_le_pow2; [lia | exact Hj].
Qed.

Lemma num_add_power (j : nat) : num_add (2 ^ j) = 0%nat.
Proof.
  unfold num_add.
  destruct (2 ^ j)%nat as [|m] eqn:E; [reflexivity|].
  rewrite <- E, Nat.log2_up_pow2 by lia. lia.
Qed.

Lemma nth_map_seq {A : Type} (f : nat -> A) (n i : nat) (d : A) :
  (i < n)%nat -> nth i (map f (seq 0 n)) d = f i.
Proof.
  intros Hi.
  rewrite (nth_indep _ d (f O)) by (rewrite length_map, length_seq; exact Hi).
  rewrite (map_nth f (seq 0 n) O i), seq_nth by exact Hi.
  reflexivity.
Qed.

Lemma last_nth {A : Type} (l : list A) (d : A) :
  l <> [] -> last l d = nth (List.length l - 1) l d.
Proof.
  induction l as [|a l IH]; intros Hne; [contradiction|].
  destruct l as [|b l]; [reflexivity|].
  change (last (a :: b :: l) d) with (last (b :: l) d).
  rewrite IH by discriminate.
  simpl. rewrite Nat.sub_0_r. reflexivity.
Qed.

Lemma linspace_length (start stop : R) (num : nat) :
  List.length (linspace start stop num) = num.
Proof. unfold linspace. rewrite length_map, length_seq. reflexivity. Qed.

Lemma linspace_nth (start stop : R) (num i : nat) :
  (i < num)%nat ->
  nth i (linspace start stop num) 0 = INR i * ((stop - start) / INR num) + start.
Proof.
  intros Hi. unfold linspace.
  rewrite nth_map_seq by exact Hi. reflexivity.
Qed.

(** Entry [j] of the right ramp: [j + 1] steps past the edge. *)
Lemma ramp_nth (edge dt : R) (num j : nat) :
  (j < num)%nat ->
  nth j (rev (linspace (edge + INR num * dt) edge num)) 0
  = edge + INR (j + 1) * dt.
Proof.
  intros Hj.
  rewrite rev_nth by (rewrite linspace_length; exact Hj).
  rewrite linspace_length.
  rewrite linspace_nth by lia.
  rewrite minus_INR by lia.
  rewrite plus_INR, S_INR. simpl (INR 1).
  assert (Hnum : INR num <> 0) by (apply not_0_INR; lia).
  field. exact Hnum.
Qed.

Lemma step_is_dt (xs : list R) :
  (if (1 <? List.length xs)%nat then nth 1 xs 0 - nth 0 xs 0 else 0) = step xs.
Proof. destruct xs as [|x0 [|x1 xs]]; reflexivity. Qed.

Lemma zeropadding_nonempty (xs ys : list R) :
  xs <> [] ->
  zeropadding xs ys
  = Ok (xs ++ rev (linspace (last xs 0 + INR (num_add (List.length xs)) * step xs)
                     (last xs 0) (num_add (List.length xs))),
        ys ++ repeat 0 (num_add (List.length xs))).
Proof.
  intros Hne. unfold zeropadding, pad_linear_ramp, pad_constant.
  rewrite step_is_dt.
  destruct xs as [|x xs]; [contradiction|].
  reflexivity.
Qed.

Lemma zeropadding_empty (ys : list R) : zeropadding [] ys = Raise IndexError.
Proof. reflexivity. Qed.

(** C6.  For two sequences of one length N >= 1, [zeropadding] returns
    two sequences whose length is the least power of two that is at least
    N (so N itself when N is a power of two).  Each output starts with
    its input; every appended y is zero; the j-th appended x (counting
    from 1) is [xs[-1] + j*dt] with [dt = xs[1] - xs[0]], or 0 for N = 1,
    so the last appended x is [xs[-1] + pad_count*dt]. *)
Theorem zeropadding_next_power_of_two (xs ys : list R) :
  List.length xs = List.length ys ->
  (1 <= List.length xs)%nat ->
  exists xs' ys' pad_count,
    zeropadding xs ys = Ok (xs', ys')
    /\ List.length xs' = (List.length xs + pad_count)%nat
    /\ List.length ys' = (List.length xs + pad_count)%nat
    /\ next_power_of_two (List.length xs) (List.length xs + pad_count)
    /\ ((exists j, List.length xs = 2 ^ j)%nat -> xs' = xs /\ ys' = ys)
    /\ firstn (List.length xs) xs' = xs
    /\ firstn (List.length xs) ys' = ys
    /\ skipn (List.length xs) ys' = repeat 0 pad_count
    /\ (forall j, (j < pad_count)%nat ->
          nth (List.length xs + j) xs' 0 = last xs 0 + INR (j + 1) * step xs)
    /\ ((0 < pad_count)%nat -> last xs' 0 = last xs 0 + INR pad_count * step xs).
Proof.
  intros Hlen Hn.
  assert (Hne : xs <> []) by (destruct xs; [simpl in Hn; lia | discriminate]).
  set (n := num_add (List.length xs)).
  eexists _, _, n.
  split; [apply zeropadding_nonempty; exact Hne|].
  fold n.
  repeat split.
  - rewrite length_app, length_rev, linspace_length. reflexivity.
  - rewrite length_app, repeat_length, Hlen. reflexivity.
  - apply padded_length_is_next_power; exact Hn.
  - apply padded_length_is_next_power; exact Hn.
  - apply padded_length_is_next_power; exact Hn.
  - destruct H as [j Hj]. subst n. rewrite Hj, num_add_power. simpl.
    apply app_nil_r.
  - destruct H as [j Hj]. subst n. rewrite Hj, num_add_power. simpl.
    apply app_nil_r.
  - rewrite firstn_app, Nat.sub_diag, firstn_all. simpl. apply app_nil_r.
  - rewrite Hlen, firstn_app, Nat.sub_diag, firstn_all. simpl. apply app_nil_r.
  - rewrite Hlen, skipn_app, Nat.sub_diag, skipn_all. reflexivity.
  - intros j Hj.
    rewrite app_nth2 by lia.
    replace (List.length xs + j - List.length xs)%nat with j by lia.
    apply ramp_nth; exact Hj.
  - intros Hpos.
    rewrite last_nth by (intros E; apply app_eq_nil in E; tauto).
    rewrite length_app, length_rev, linspace_length.
    rewrite app_nth2 by lia.
    replace (List.length xs + n - 1 - List.length xs)%nat with (n - 1)%nat by lia.
    rewrite ramp_nth by lia.
    replace (n - 1 + 1)%nat with n by lia. reflexivity.
Qed.

(** Five samples are padded to the next power of two. *)
Lemma zeropadding_next_power_of_two_witness :
  exists xs' ys' pad_count,
    zeropadding [0; 1; 2; 3; 4] [0; 1; 0; -1; 0] = Ok (xs', ys')
    /\ next_power_of_two 5 (5 + pad_count)
    /\ skipn 5 ys' = repeat 0 pad_count
    /\ (forall j, (j < pad_count)%nat -> nth (5 + j) xs' 0 = 4 + INR (j + 1) * (1 - 0)).
Proof.
  destruct (zeropadding_next_power_of_two [0; 1; 2; 3; 4] [0; 1; 0; -1; 0]
              eq_refl ltac:(simpl; lia))
    as (xs' & ys' & pad & Hz & _ & _ & Hnp & _ & _ & _ & Hsk & Hnth & _).
  exists xs', ys', pad.
  repeat split; try assumption; apply Hnp.
Defined.

End ZeroPadding.

(** ** Windows *)

Module Windowing.
Import Numpy TSTS.

Lemma taper_length (f : R -> R -> R) (M : nat) : List.length (taper f M) = M.
Proof.
  unfold taper, window_arange.
  destruct M as [|[|M]]; [reflexivity | reflexivity |].
  rewrite !length_map, length_seq. reflexivity.
Qed.

(** A property of every weight needs checking at 1 (the single-sample
    window) and on the formula for the odd or even integers n between
    1-M and M-1. *)
Lemma taper_Forall (P : R -> Prop) (f : R -> R -> R) (M : nat) :
  P 1 ->
  (forall n : Z, (2 <= M)%nat -> (1 - Z.of_nat M <= n <= Z.of_nat M - 1)%Z ->
                 P (f (IZR n) (INR M - 1))) ->
  Forall P (taper f M).
Proof.
  intros H1 Hf. unfold taper, window_arange.
  destruct M as [|[|M]]; [constructor | repeat constructor; exact H1 |].
  apply Forall_forall. intros w Hw.
  apply in_map_iff in Hw. destruct Hw as (n & <- & Hn).
  apply in_map_iff in Hn. destruct Hn as (i & <- & Hi).
  apply in_seq in Hi.
  apply Hf; lia.
Qed.

Lemma ones_length (n : nat) : List.length (ones n) = n.
Proof. apply repeat_length. Qed.

Lemma ones_nonneg (n : nat) : Forall (fun w => 0 <= w) (ones n).
Proof.
  unfold ones. apply Forall_forall. intros w Hw.
  apply repeat_spec in Hw. subst w. lra.
Qed.

Lemma hanning_nonneg (M : nat) : Forall (fun w => 0 <= w) (hanning M).
Proof.
  apply taper_Forall; [lra|]. intros n _ _.
  pose proof (COS_bound (PI * IZR n / (INR M - 1))). lra.
Qed.

Lemma hamming_nonneg (M : nat) : Forall (fun w => 0 <= w) (hamming M).
Proof.
  apply taper_Forall; [lra|]. intros n _ _.
  pose proof (COS_bound (PI * IZR n / (INR M - 1))). lra.
Qed.

Lemma blackman_end_value : Float64.value Float64.blackman_end = - / 2 ^ 56.
Proof.
  unfold Float64.value.
  replace (FloatOps.Prim2SF Float64.blackman_end)
    with (SpecFloat.S754_finite true 4503599627370496 (-108))
    by (vm_compute; reflexivity).
  assert (H52 : IZR 4503599627370496 = 2 ^ 52).
  { rewrite (pow_IZR 2 52). f_equal. }
  assert (H108 : powerRZ 2 (-108) = / (2 ^ 52 * 2 ^ 56)).
  { rewrite <- pow_add. unfold powerRZ. f_equal. }
  rewrite H52, H108.
  assert (2 ^ 52 <> 0) by (apply pow_nonzero; lra).
  assert (2 ^ 56 <> 0) by (apply pow_nonzero; lra).
  field; repeat split; assumption.
Qed.

Lemma blackman_end_negative : - / 2 ^ 56 < 0.
Proof.
  assert (0 < / 2 ^ 56) by (apply Rinv_0_lt_compat, pow_lt; lra). lra.
Qed.

Lemma blackman_end_small : -1 <= - / 2 ^ 56.
Proof.
  assert (1 <= 2 ^ 56) by (apply pow_R1_Rle; lra).
  assert (/ 2 ^ 56 <= / 1) by (apply Rinv_le_contravar; lra).
  rewrite Rinv_1 in *. lra.
Qed.

(** Away from the ends the weight is the real sum, which is not negative. *)
Lemma blackman_sum_bounds (x : R) :
  0 <= 42 / 100 + 5 / 10 * cos x + 8 / 100 * cos (2 * x) <= 1.
Proof.
  rewrite cos_2a_cos.
  pose proof (COS_bound x) as [Hlo Hhi].
  set (c := cos x) in *.
  assert (0 <= (c + 1) * (c + 17 / 8)) by (apply Rmult_le_pos; lra).
  assert (0 <= (1 - c) * (c + 33 / 8)) by (apply Rmult_le_pos; lra).
  lra.
Qed.

Lemma blackman_weight_bounds (n M1 : R) :
  - / 2 ^ 56
  <= (if Req_EM_T (Rabs n) M1 then Float64.value Float64.blackman_end
      else 42 / 100 + 5 / 10 * cos (PI * n / M1) + 8 / 100 * cos (2 * PI * n / M1))
  <= 1.
Proof.
  pose proof blackman_end_negative. pose proof blackman_end_small.
  destruct (Req_EM_T (Rabs n) M1).
  - rewrite blackman_end_value. lra.
  - replace (2 * PI * n / M1) with (2 * (PI * n / M1)) by (unfold Rdiv; ring).
    pose proof (blackman_sum_bounds (PI * n / M1)). lra.
Qed.

Lemma blackman_bounds (M : nat) : Forall (fun w => - / 2 ^ 56 <= w <= 1) (blackman M).
Proof.
  apply taper_Forall.
  - pose proof blackman_end_negative. lra.
  - intros n _ _. apply blackman_weight_bounds.
Qed.

Lemma taper_nth (f : R -> R -> R) (M i : nat) :
  (2 <= M)%nat -> (i < M)%nat ->
  nth i (taper f M) 0 = f (IZR (1 - Z.of_nat M + 2 * Z.of_nat i)) (INR M - 1).
Proof.
  intros HM Hi. unfold taper, window_arange.
  destruct M as [|[|M]]; try lia.
  rewrite map_map.
  rewrite (ZeroPadding.nth_map_seq _ (S (S M)) i 0 Hi). reflexivity.
Qed.

(** Only the first and the last index sit at an end of [arange(1-M, M, 2)]. *)
Lemma at_an_end (M i : nat) :
  (2 <= M)%nat -> (i < M)%nat ->
  Rabs (IZR (1 - Z.of_nat M + 2 * Z.of_nat i)) = INR M - 1
  <-> i = 0%nat \/ i = (M - 1)%nat.
Proof.
  intros HM Hi.
  assert (HM1 : INR M - 1 = IZR (Z.of_nat M - 1))
    by (rewrite minus_IZR, <- INR_IZR_INZ; reflexivity).
  rewrite HM1, <- abs_IZR. split.
  - intros H. apply eq_IZR in H. lia.
  - intros H. f_equal. lia.
Qed.

Lemma blackman_nth (M i : nat) :
  (2 <= M)%nat -> (i < M)%nat ->
  (i = 0%nat \/ i = (M - 1)%nat -> nth i (blackman M) 0 = - / 2 ^ 56)
  /\ ((0 < i < M - 1)%nat -> 0 <= nth i (blackman M) 0).
Proof.
  intros HM Hi. unfold blackman. rewrite taper_nth by assumption.
  pose proof (at_an_end M i HM Hi) as Hend.
  destruct (Req_EM_T _ _) as [E | E].
  - split; [intros _; apply blackman_end_value|].
    intros Hin. apply Hend in E. lia.
  - split; [intros H; apply Hend in H; contradiction|].
    intros _.
    replace (2 * PI * IZR (1 - Z.of_nat M + 2 * Z.of_nat i) / (INR M - 1))
      with (2 * (PI * IZR (1 - Z.of_nat M + 2 * Z.of_nat i) / (INR M - 1)))
      by (unfold Rdiv; ring).
    apply blackman_sum_bounds.
Qed.

Lemma bartlett_nonneg (M : nat) : Forall (fun w => 0 <= w) (bartlett M).
Proof.
  apply taper_Forall; [lra|]. intros n HM [Hlo Hhi].
  assert (HM1 : INR M - 1 = IZR (Z.of_nat M - 1))
    by (rewrite minus_IZR, <- INR_IZR_INZ; reflexivity).
  assert (Hpos : 0 < INR M - 1).
  { rewrite HM1. apply IZR_lt. lia. }
  assert (Hlo' : - (INR M - 1) <= IZR n).
  { rewrite HM1, <- opp_IZR. apply IZR_le. lia. }
  assert (Hhi' : IZR n <= INR M - 1).
  { rewrite HM1. apply IZR_le. lia. }
  set (m := INR M - 1) in *.
  assert (Hq : IZR n / m * m = IZR n) by (field; lra).
  set (q := IZR n / m) in *.
  destruct (Rle_dec (IZR n) 0); nra.
Qed.

Lemma lookup_functions (windowtype : string) :
  match lookup windowtype functions with
  | Some f => f = hanning \/ f = blackman \/ f = hamming \/ f = bartlett
  | None => windowtype <> "hanning"%string /\ windowtype <> "blackman"%string
            /\ windowtype <> "hamming"%string /\ windowtype <> "bartlett"%string
  end.
Proof.
  unfold functions, lookup.
  destruct (String.eqb_spec windowtype "hanning"); [tauto|].
  destruct (String.eqb_spec windowtype "blackman"); [tauto|].
  destruct (String.eqb_spec windowtype "hamming"); [tauto|].
  destruct (String.eqb_spec windowtype "bartlett"); tauto.
Qed.

Lemma lookup_unrecognized (windowtype : string) :
  windowtype <> "hanning"%string -> windowtype <> "blackman"%string ->
  windowtype <> "hamming"%string -> windowtype <> "bartlett"%string ->
  lookup windowtype functions = @None (nat -> list R).
Proof.
  intros H1 H2 H3 H4. unfold functions, lookup.
  destruct (String.eqb_spec windowtype "hanning"); [contradiction|].
  destruct (String.eqb_spec windowtype "blackman"); [contradiction|].
  destruct (String.eqb_spec windowtype "hamming"); [contradiction|].
  destruct (String.eqb_spec windowtype "bartlett"); [contradiction|].
  reflexivity.
Qed.

Lemma calc_window_length (windowtype : string) (ys : list R) :
  List.length (calc_window windowtype ys) = List.length ys.
Proof.
  unfold calc_window.
  pose proof (lookup_functions windowtype) as H.
  destruct (lookup windowtype functions) as [f|].
  - destruct H as [-> | [-> | [-> | ->]]]; apply taper_length.
  - apply ones_length.
Qed.

Lemma calc_window_blackman (ys : list R) :
  calc_window "blackman" ys = blackman (List.length ys).
Proof. reflexivity. Qed.

(** C8, as stated, fails.  For two samples the "blackman" weights are
    both the float64 sum 0.42 - 0.5 + 0.08, which is -2^-56: the weights
    are not all non-negative. *)
Lemma calc_window_blackman_negative :
  nth 0 (calc_window "blackman" [0; 0]) 0 = - / 2 ^ 56
  /\ nth 1 (calc_window "blackman" [0; 0]) 0 = - / 2 ^ 56
  /\ - / 2 ^ 56 < 0
  /\ ~ Forall (fun w => 0 <= w) (calc_window "blackman" [0; 0]).
Proof.
  rewrite calc_window_blackman.
  change (List.length [0; 0]) with 2%nat.
  pose proof (proj1 (blackman_nth 2 0 ltac:(lia) ltac:(lia)) (or_introl eq_refl)) as H0.
  pose proof (proj1 (blackman_nth 2 1 ltac:(lia) ltac:(lia)) (or_intror eq_refl)) as H1.
  pose proof blackman_end_negative as Hneg.
  repeat split; try assumption.
  intros Hall. rewrite Forall_forall in Hall.
  assert (Hin : In (nth 0 (blackman 2) 0) (blackman 2)).
  { apply nth_In. unfold blackman. rewrite taper_length. lia. }
  specialize (Hall _ Hin). rewrite H0 in Hall. lra.
Qed.

(** C8, amended.  For every window name and every length N (the length
    of the array handed in), [calc_window] returns exactly N weights.
    For "boxcar", and for every name that is not one of the four tapers,
    all N weights are 1.  For every name but "blackman" no weight is
    negative.  For "blackman" and N >= 2 the first and the last weight
    are -2^-56 and every weight between them is non-negative; for
    N < 2 no weight is negative. *)
Theorem calc_window_weights (windowtype : string) (ys : list R) :
  List.length (calc_window windowtype ys) = List.length ys
  /\ calc_window "boxcar" ys = repeat 1 (List.length ys)
  /\ (windowtype <> "hanning"%string -> windowtype <> "blackman"%string ->
      windowtype <> "hamming"%string -> windowtype <> "bartlett"%string ->
      calc_window windowtype ys = repeat 1 (List.length ys))
  /\ (windowtype <> "blackman"%string ->
      Forall (fun w => 0 <= w) (calc_window windowtype ys))
  /\ ((2 <= List.length ys)%nat ->
      nth 0 (calc_window "blackman" ys) 0 = - / 2 ^ 56
      /\ nth (List.length ys - 1) (calc_window "blackman" ys) 0 = - / 2 ^ 56
      /\ forall i, (0 < i < List.length ys - 1)%nat ->
                   0 <= nth i (calc_window "blackman" ys) 0)
  /\ ((List.length ys < 2)%nat ->
      Forall (fun w => 0 <= w) (calc_window "blackman" ys)).
Proof.
  split; [apply calc_window_length|].
  split; [reflexivity|].
  split.
  { intros H1 H2 H3 H4. unfold calc_window.
    rewrite (lookup_unrecognized _ H1 H2 H3 H4). reflexivity. }
  split.
  { intros Hnb. unfold calc_window, functions, lookup.
    destruct (String.eqb_spec windowtype "hanning"); [apply hanning_nonneg|].
    destruct (String.eqb_spec windowtype "blackman"); [contradiction|].
    destruct (String.eqb_spec windowtype "hamming"); [apply hamming_nonneg|].
    destruct (String.eqb_spec windowtype "bartlett"); [apply bartlett_nonneg|].
    apply ones_nonneg. }
  split.
  { intros Hn. rewrite calc_window_blackman.
    split; [apply (blackman_nth (List.length ys) 0); [lia | lia | left; reflexivity]|].
    split; [apply (blackman_nth (List.length ys) (List.length ys - 1));
            [lia | lia | right; reflexivity]|].
    intros i Hi. apply (blackman_nth (List.length ys) i); lia. }
  intros Hn. rewrite calc_window_blackman. unfold blackman, taper.
  destruct (List.length ys) as [|[|n]]; [constructor | | lia].
  apply ones_nonneg.
Qed.

(** A name outside the dictionary, and the ends of a "blackman" window,
    on three samples. *)
Lemma calc_window_weights_witness :
  calc_window "kaiser" [0; 1; 0] = [1; 1; 1]
  /\ nth 0 (calc_window "blackman" [0; 1; 0]) 0 = - / 2 ^ 56
  /\ nth 2 (calc_window "blackman" [0; 1; 0]) 0 = - / 2 ^ 56
  /\ 0 <= nth 1 (calc_window "blackman" [0; 1; 0]) 0
  /\ Forall (fun w => 0 <= w) (calc_window "hanning" [0; 1; 0]).
Proof.
  pose proof (calc_window_weights "kaiser" [0; 1; 0])
    as (_ & _ & Hones & _ & Hblack & _).
  pose proof (calc_window_weights "hanning" [0; 1; 0])
    as (_ & _ & _ & Hpos & _).
  destruct (Hblack ltac:(simpl; lia)) as (H0 & H2 & Hin).
  split; [apply Hones; discriminate|].
  split; [exact H0|]. split; [exact H2|].
  split; [apply Hin; simpl; lia|].
  apply Hpos. discriminate.
Defined.

End Windowing.

(** ** The frequency axis *)

Module FrequencyAxis.
Import Numpy TSTS Readings.

Lemma compress_map_filter {A : Type} (p : A -> bool) (l : list A) :
  compress (map p l) l = filter p l.
Proof.
  induction l as [|x l IH]; simpl; [reflexivity|].
  destruct (p x); rewrite IH; reflexivity.
Qed.

Lemma filter_none {A : Type} (p : A -> bool) (l : list A) :
  (forall x, In x l -> p x = false) -> filter p l = [].
Proof.
  induction l as [|x l IH]; intros H; simpl; [reflexivity|].
  rewrite (H x (or_introl eq_refl)). apply IH.
  intros y Hy. apply H. right; exact Hy.
Qed.

Lemma filter_all {A : Type} (p : A -> bool) (l : list A) :
  (forall x, In x l -> p x = true) -> filter p l = l.
Proof.
  induction l as [|x l IH]; intros H; simpl; [reflexivity|].
  rewrite (H x (or_introl eq_refl)). f_equal. apply IH.
  intros y Hy. apply H. right; exact Hy.
Qed.

Lemma map_const_repeat {A B : Type} (f : A -> B) (c : B) (l : list A) :
  (forall x, In x l -> f x = c) -> map f l = repeat c (List.length l).
Proof.
  induction l as [|x l IH]; intros H; simpl; [reflexivity|].
  rewrite (H x (or_introl eq_refl)). f_equal. apply IH.
  intros y Hy. apply H. right; exact Hy.
Qed.

(** Kept frequencies are positive, whatever the axis. *)
Lemma masked_positive (l : list xreal) :
  Forall positive (compress (map xgreater0 l) l).
Proof.
  rewrite compress_map_filter. apply Forall_forall. intros v Hv.
  apply filter_In in Hv. destruct Hv as [_ Hv].
  destruct v; simpl in *; try discriminate; try exact I.
  apply Rltb_iff; exact Hv.
Qed.

(** With a negative [val], the bins that pass the mask are the negative
    ones, which [fftfreq] lists last. *)
Lemma fftfreq_negative_spacing (n : nat) (r : R) :
  r < 0 ->
  filter xgreater0 (map (fun k => xscale k (Fin r)) (fftfreq_bins n))
  = map (fun i => Fin (IZR (Z.of_nat i - Z.of_nat (n / 2)) * r)) (seq 0 (n / 2)).
Proof.
  intros Hr. unfold fftfreq_bins.
  rewrite map_app, filter_app, !map_map.
  rewrite filter_none, filter_all; [reflexivity | |].
  - intros v Hv. apply in_map_iff in Hv. destruct Hv as (i & <- & Hi).
    apply in_seq in Hi. cbn [xscale xgreater0]. apply Rltb_true.
    assert (IZR (Z.of_nat i - Z.of_nat (n / 2)) <= -1) by (apply IZR_le; lia).
    nra.
  - intros v Hv. apply in_map_iff in Hv. destruct Hv as (i & <- & Hi).
    cbn [xscale xgreater0]. apply Rltb_false.
    assert (0 <= IZR (Z.of_nat i)) by (apply IZR_le; lia).
    nra.
Qed.

(** With an infinite [val], the bins that pass the mask are the positive
    ones, and each of them is [+inf]. *)
Lemma fftfreq_zero_spacing (n : nat) :
  filter xgreater0 (map (fun k => xscale k PInf) (fftfreq_bins n))
  = repeat PInf ((n - 1) / 2).
Proof.
  unfold fftfreq_bins.
  rewrite map_app, filter_app, !map_map.
  rewrite (filter_none _ (map _ (seq 0 (n / 2)))).
  - rewrite app_nil_r, Nat.add_1_r.
    cbn [seq map filter xscale Z.of_nat Z.eqb xgreater0].
    rewrite (map_const_repeat _ PInf).
    + rewrite length_seq. apply filter_all. intros v Hv. apply repeat_spec in Hv. subst v. reflexivity.
    + intros i Hi. apply in_seq in Hi. destruct i; [lia | reflexivity].
  - intros v Hv. apply in_map_iff in Hv. destruct Hv as (i & <- & Hi).
    apply in_seq in Hi. cbn [xscale].
    destruct (Z.of_nat i - Z.of_nat (n / 2))%Z eqn:E; try lia; reflexivity.
Qed.

Lemma StronglySorted_map_seq {A : Type} (rel : A -> A -> Prop) (h : nat -> A)
    (a m : nat) :
  (forall i j, (a <= i < j)%nat -> (j < a + m)%nat -> rel (h i) (h j)) ->
  StronglySorted rel (map h (seq a m)).
Proof.
  revert a; induction m as [|m IH]; intros a H; simpl; constructor.
  - apply IH. intros i j Hij Hj. apply H; lia.
  - apply Forall_forall. intros v Hv.
    apply in_map_iff in Hv. destruct Hv as (j & <- & Hj).
    apply in_seq in Hj. apply H; lia.
Qed.

Lemma fold_left_Rmin_le (l : list R) (a : R) : fold_left Rmin l a <= a.
Proof.
  revert a; induction l as [|x l IH]; intros a; simpl; [lra|].
  eapply Rle_trans; [apply IH | apply Rmin_l].
Qed.

Lemma fold_left_Rmax_ge (l : list R) (a : R) : a <= fold_left Rmax l a.
Proof.
  revert a; induction l as [|x l IH]; intros a; simpl; [lra|].
  eapply Rle_trans; [apply Rmax_l | apply IH].
Qed.

Lemma py_min_le_max (xs : list R) : py_min xs <= py_max xs.
Proof.
  destruct xs as [|x t]; simpl; [lra|].
  eapply Rle_trans; [apply fold_left_Rmin_le | apply fold_left_Rmax_ge].
Qed.

Lemma py_min_app (xs l : list R) : xs <> [] -> py_min (xs ++ l) <= py_min xs.
Proof.
  destruct xs as [|x t]; [contradiction|]. intros _. simpl.
  rewrite fold_left_app. apply fold_left_Rmin_le.
Qed.

Lemma py_max_app (xs l : list R) : xs <> [] -> py_max xs <= py_max (xs ++ l).
Proof.
  destruct xs as [|x t]; [contradiction|]. intros _. simpl.
  rewrite fold_left_app. apply fold_left_Rmax_ge.
Qed.

Lemma compress_same_length {A B : Type} (mask : list bool) (a : list A) (b : list B) :
  List.length a = List.length b ->
  List.length (compress mask a) = List.length (compress mask b).
Proof.
  revert a b; induction mask as [|m mask IH]; intros [|x a] [|y b] H;
    simpl in *; try reflexivity; try discriminate.
  injection H as H. destruct m; simpl; rewrite (IH a b H); reflexivity.
Qed.

Lemma fftfreq_length (n : nat) (d : R) :
  (1 <= n)%nat -> List.length (fftfreq n d) = n.
Proof.
  intros Hn. unfold fftfreq, fftfreq_bins.
  rewrite length_map, length_app, !length_map, !length_seq.
  pose proof (Nat.div_mod_eq n 2). pose proof (Nat.div_mod_eq (n - 1) 2).
  pose proof (Nat.mod_upper_bound n 2). pose proof (Nat.mod_upper_bound (n - 1) 2).
  lia.
Qed.

Lemma fft_length (a : list R) : List.length (fft a) = List.length a.
Proof. unfold fft. rewrite length_map, length_seq. reflexivity. Qed.

Lemma multiply_length (a b : list R) :
  List.length a = List.length b -> List.length (multiply a b) = List.length a.
Proof.
  revert b; induction a as [|x a IH]; intros [|y b] H; simpl in *;
    try reflexivity; try discriminate.
  injection H as H. rewrite (IH b H). reflexivity.
Qed.

(** One magnitude per kept frequency. *)
Lemma spectrum_lengths (xs ys window : list R) :
  List.length xs = List.length ys ->
  List.length window = List.length ys ->
  List.length (snd (spectrum xs ys window)) = List.length (fst (spectrum xs ys window)).
Proof.
  intros Hxy Hw. unfold spectrum.
  destruct (List.length xs) as [|n] eqn:Hn; [reflexivity|].
  cbn [fst snd]. unfold absolute. rewrite length_map.
  apply compress_same_length.
  rewrite fft_length, multiply_length, fftfreq_length by (try lia; congruence).
  congruence.
Qed.

Lemma xrecip_nonzero (x : R) : x <> 0 -> xrecip x = Fin (1 / x).
Proof. intros H. unfold xrecip. destruct (Req_EM_T x 0); [contradiction | reflexivity]. Qed.

Lemma xrecip_zero : xrecip 0 = PInf.
Proof. unfold xrecip. destruct (Req_EM_T 0 0); [reflexivity | contradiction]. Qed.

Lemma spacing_times_length (n : nat) (x : R) :
  (1 <= n)%nat -> INR n * (x / INR n) = x.
Proof. intros Hn. field. apply not_0_INR. lia. Qed.

Lemma spectrum_axis (xs ys window : list R) :
  xs <> [] ->
  fst (spectrum xs ys window)
  = filter xgreater0 (fftfreq (List.length xs)
                        ((py_min xs - py_max xs) / INR (List.length xs))).
Proof.
  intros Hne. unfold spectrum.
  destruct xs as [|x t]; [contradiction|].
  cbn [List.length fst]. apply compress_map_filter.
Qed.

Lemma spectrum_positive (xs ys window : list R) :
  Forall positive (fst (spectrum xs ys window)).
Proof.
  unfold spectrum. destruct (List.length xs); [constructor|].
  cbn [fst]. apply masked_positive.
Qed.

(** The frequencies of a selection that spans a positive time: bin
    [i - N/2] over [min - max], for i = 0 .. N/2 - 1. *)
Lemma spectrum_frequencies (xs ys window : list R) :
  py_min xs < py_max xs ->
  fst (spectrum xs ys window)
  = map (fun i => Fin (IZR (Z.of_nat i - Z.of_nat (List.length xs / 2))
                       * (1 / (py_min xs - py_max xs))))
      (seq 0 (List.length xs / 2)).
Proof.
  intros Hspan.
  assert (Hne : xs <> []) by (intros ->; simpl in Hspan; lra).
  assert (Hn : (1 <= List.length xs)%nat)
    by (destruct xs; [contradiction | simpl; lia]).
  rewrite spectrum_axis by exact Hne.
  unfold fftfreq. rewrite spacing_times_length by exact Hn.
  rewrite xrecip_nonzero by lra.
  apply fftfreq_negative_spacing.
  assert (0 < / (py_max xs - py_min xs)) by (apply Rinv_0_lt_compat; lra).
  replace (1 / (py_min xs - py_max xs)) with (- / (py_max xs - py_min xs))
    by (field; lra).
  lra.
Qed.

(** The frequencies of a selection whose times are all equal. *)
Lemma spectrum_frequencies_no_span (xs ys window : list R) :
  xs <> [] -> py_min xs = py_max xs ->
  fst (spectrum xs ys window) = repeat PInf ((List.length xs - 1) / 2).
Proof.
  intros Hne Hspan.
  assert (Hn : (1 <= List.length xs)%nat)
    by (destruct xs; [contradiction | simpl; lia]).
  rewrite spectrum_axis by exact Hne.
  unfold fftfreq. rewrite spacing_times_length by exact Hn.
  rewrite Hspan, Rminus_diag, xrecip_zero.
  apply fftfreq_zero_spacing.
Qed.

Lemma frequencies_decreasing (m : nat) (r : R) :
  r < 0 ->
  strictly_decreasing
    (map (fun i => Fin (IZR (Z.of_nat i - Z.of_nat m) * r)) (seq 0 m)).
Proof.
  intros Hr. apply StronglySorted_map_seq.
  intros i j Hij Hj. cbn [xlt].
  assert (IZR (Z.of_nat i - Z.of_nat m) < IZR (Z.of_nat j - Z.of_nat m))
    by (apply IZR_lt; lia).
  nra.
Qed.

Lemma frequencies_finite (m : nat) (r : R) :
  Forall finite (map (fun i => Fin (IZR (Z.of_nat i - Z.of_nat m) * r)) (seq 0 m)).
Proof.
  apply Forall_forall. intros v Hv.
  apply in_map_iff in Hv. destruct Hv as (i & <- & _). exact I.
Qed.

Lemma negative_reciprocal (a b : R) : a < b -> 1 / (a - b) < 0.
Proof.
  intros H.
  assert (0 < / (b - a)) by (apply Rinv_0_lt_compat; lra).
  replace (1 / (a - b)) with (- / (b - a)) by (field; lra).
  lra.
Qed.

Lemma spectrum_decreasing (xs ys window : list R) :
  py_min xs < py_max xs ->
  strictly_decreasing (fst (spectrum xs ys window))
  /\ Forall finite (fst (spectrum xs ys window)).
Proof.
  intros Hspan. rewrite spectrum_frequencies by exact Hspan.
  split; [apply frequencies_decreasing | apply frequencies_finite].
  apply negative_reciprocal; exact Hspan.
Qed.

End FrequencyAxis.

(** ** The spectrum engine *)

Module Engine.
Import Numpy TSTS Readings RangeFilter ZeroPadding FrequencyAxis.

Lemma calc_fft_absent (fft_range : R * R) (windowtype : string) (zeropad : bool) :
  calc_fft None fft_range windowtype zeropad = Ok ([], [], [], []).
Proof. reflexivity. Qed.

Lemma spectrum_pair (xs ys window : list R) :
  spectrum xs ys window = (fst (spectrum xs ys window), snd (spectrum xs ys window)).
Proof. destruct (spectrum xs ys window); reflexivity. Qed.

(** Without padding the engine always returns. *)
Lemma calc_fft_unpadded (data : dataset) (lo hi : R) (windowtype : string) :
  let xs := column0 (selected lo hi data) in
  let ys := column1 (selected lo hi data) in
  calc_fft (Some data) (lo, hi) windowtype false
  = Ok (column0 data, column1 data,
        fst (spectrum xs ys (calc_window windowtype ys)),
        snd (spectrum xs ys (calc_window windowtype ys))).
Proof.
  intros xs ys. unfold calc_fft.
  rewrite range_filter_selected. cbn [bind]. fold xs ys.
  rewrite (spectrum_pair xs ys). reflexivity.
Qed.

(** With padding it returns when the selection holds a sample, *)
Lemma calc_fft_padded (data : dataset) (lo hi : R) (windowtype : string) :
  let xs := column0 (selected lo hi data) in
  let ys := column1 (selected lo hi data) in
  let n := num_add (List.length xs) in
  let xs' := xs ++ rev (linspace (last xs 0 + INR n * step xs) (last xs 0) n) in
  let ys' := ys ++ repeat 0 n in
  xs <> [] ->
  calc_fft (Some data) (lo, hi) windowtype true
  = Ok (column0 data, column1 data,
        fst (spectrum xs' ys' (calc_window windowtype ys')),
        snd (spectrum xs' ys' (calc_window windowtype ys'))).
Proof.
  intros xs ys n xs' ys' Hne. unfold calc_fft.
  rewrite range_filter_selected. fold xs ys.
  rewrite (zeropadding_nonempty xs ys Hne). cbn [bind]. fold n xs' ys'.
  rewrite (spectrum_pair xs' ys'). reflexivity.
Qed.

(** and raises when it holds none. *)
Lemma calc_fft_padded_empty (data : dataset) (lo hi : R) (windowtype : string) :
  selected lo hi data = [] ->
  calc_fft (Some data) (lo, hi) windowtype true = Raise IndexError.
Proof.
  intros Hsel. unfold calc_fft.
  rewrite range_filter_selected, Hsel. reflexivity.
Qed.

Lemma column0_nonempty (d : dataset) : d <> [] -> column0 d <> [].
Proof. destruct d; [contradiction | discriminate]. Qed.

Lemma strictly_inside_outside (lo hi : R) (s : R * R) :
  fst s <= lo \/ hi <= fst s -> strictly_inside lo hi s = false.
Proof.
  intros H. destruct (strictly_inside lo hi s) eqn:E; [|reflexivity].
  apply strictly_inside_iff in E. lra.
Qed.

(** Evaluate the filter on a concrete series. *)
Ltac decide_inside :=
  repeat match goal with
    | |- context [strictly_inside ?lo ?hi ?s] =>
        first
          [ rewrite (proj2 (strictly_inside_iff lo hi s)) by (cbn [fst]; lra)
          | rewrite (strictly_inside_outside lo hi s) by (cbn [fst]; lra) ]
    end.

Ltac eval_selected :=
  unfold selected, Scenario.five_samples; cbn [filter]; decide_inside; cbn [filter].

Lemma selected_all_five :
  selected (-1) 5 Scenario.five_samples = Scenario.five_samples.
Proof. eval_selected. reflexivity. Qed.

Lemma selected_none_of_five : selected 10 20 Scenario.five_samples = [].
Proof. eval_selected. reflexivity. Qed.

Lemma selected_two_of_five :
  selected (1 / 2) (5 / 2) Scenario.five_samples = [(1, 1); (2, 0)].
Proof. eval_selected. reflexivity. Qed.

Lemma five_times_min : py_min Scenario.five_times = 0.
Proof.
  cbn [Scenario.five_times py_min fold_left].
  unfold Rmin; repeat destruct (Rle_dec _ _); lra.
Qed.

Lemma five_times_max : py_max Scenario.five_times = 4.
Proof.
  cbn [Scenario.five_times py_max fold_left].
  unfold Rmax; repeat destruct (Rle_dec _ _); lra.
Qed.

(** The scenario's spectrum: bins -2 and -1 over -4, a magnitude for each. *)
Lemma five_samples_frequencies (windowtype : string) :
  exists y1 y2,
    calc_fft (Some Scenario.five_samples) (-1, 5) windowtype false
    = Ok (Scenario.five_times, Scenario.five_values,
          [Fin (1 / 2); Fin (1 / 4)], [y1; y2]).
Proof.
  rewrite calc_fft_unpadded, selected_all_five.
  change (column0 Scenario.five_samples) with Scenario.five_times.
  change (column1 Scenario.five_samples) with Scenario.five_values.
  pose proof (spectrum_lengths Scenario.five_times Scenario.five_values
                (calc_window windowtype Scenario.five_values) eq_refl
                (Windowing.calc_window_length _ _)) as Hlen.
  assert (Hfreq : fst (spectrum Scenario.five_times Scenario.five_values
                         (calc_window windowtype Scenario.five_values))
                  = [Fin (1 / 2); Fin (1 / 4)]).
  { rewrite spectrum_frequencies by (rewrite five_times_min, five_times_max; lra).
    rewrite five_times_min, five_times_max.
    change (List.length Scenario.five_times / 2)%nat with 2%nat.
    cbn [seq map Z.of_nat Z.sub Z.opp Z.add Pos.of_succ_nat Pos.succ Z.pos_sub
         Z.succ_double Z.pred_double Z.double Pos.pred_double].
    replace (-2 * (1 / (0 - 4))) with (1 / 2) by lra.
    replace (-1 * (1 / (0 - 4))) with (1 / 4) by lra.
    reflexivity. }
  rewrite Hfreq in *.
  destruct (snd (spectrum _ _ _)) as [|y1 [|y2 [|y3 l]]]; try discriminate Hlen.
  exists y1, y2. reflexivity.
Qed.

(** C1, as stated, fails.  On the scenario of the spec (five samples,
    range (-1, 5), boxcar, no padding) the frequencies come out as 1/2
    followed by 1/4, which is not an increasing order. *)
Lemma spectrum_frequencies_not_increasing :
  exists spec_ys,
    calc_fft (Some Scenario.five_samples) (-1, 5) "boxcar" false
    = Ok (Scenario.five_times, Scenario.five_values,
          [Fin (1 / 2); Fin (1 / 4)], spec_ys)
    /\ ~ strictly_increasing [Fin (1 / 2); Fin (1 / 4)].
Proof.
  destruct (five_samples_frequencies "boxcar") as (y1 & y2 & H).
  exists [y1; y2]. split; [exact H|].
  intros Hs. inversion Hs as [|a l _ Hall]; subst.
  inversion Hall as [|b l' Hlt _]; subst.
  cbn [xlt] in Hlt. lra.
Qed.

(** C1, amended.  For every dataset and selection that keeps at least one
    sample, with either padding setting and any window, the engine
    returns and its frequencies are all strictly positive; when the
    kept times are not all equal they are finite and strictly decreasing
    in output order. *)
Theorem spectrum_frequencies_positive_decreasing
    (data : dataset) (lo hi : R) (windowtype : string) (zeropad : bool) :
  selected lo hi data <> [] ->
  exists spec_xs spec_ys,
    calc_fft (Some data) (lo, hi) windowtype zeropad
    = Ok (column0 data, column1 data, spec_xs, spec_ys)
    /\ Forall positive spec_xs
    /\ (py_min (column0 (selected lo hi data)) < py_max (column0 (selected lo hi data)) ->
        strictly_decreasing spec_xs /\ Forall finite spec_xs).
Proof.
  intros Hsel.
  pose proof (column0_nonempty _ Hsel) as Hne.
  destruct zeropad.
  - eexists _, _. split; [apply calc_fft_padded; exact Hne|].
    split; [apply spectrum_positive|].
    intros Hspan. apply spectrum_decreasing.
    eapply Rle_lt_trans; [apply py_min_app; exact Hne|].
    eapply Rlt_le_trans; [exact Hspan | apply py_max_app; exact Hne].
  - eexists _, _. split; [apply calc_fft_unpadded|].
    split; [apply spectrum_positive|].
    intros Hspan. apply spectrum_decreasing; exact Hspan.
Qed.

Lemma spectrum_frequencies_positive_decreasing_witness :
  exists spec_xs spec_ys,
    calc_fft (Some Scenario.five_samples) (-1, 5) "hanning" true
    = Ok (Scenario.five_times, Scenario.five_values, spec_xs, spec_ys)
    /\ Forall positive spec_xs
    /\ strictly_decreasing spec_xs.
Proof.
  assert (Hsel : selected (-1) 5 Scenario.five_samples <> [])
    by (rewrite selected_all_five; discriminate).
  destruct (spectrum_frequencies_positive_decreasing
              Scenario.five_samples (-1) 5 "hanning" true Hsel)
    as (spec_xs & spec_ys & Hc & Hp & Hd).
  exists spec_xs, spec_ys.
  repeat split; try assumption.
  apply Hd. rewrite selected_all_five.
  change (column0 Scenario.five_samples) with Scenario.five_times.
  rewrite five_times_min, five_times_max. lra.
Defined.

(** Five samples at one time: both kept frequencies are infinite, so the
    order is not strict there. *)
Lemma spectrum_frequencies_equal_times :
  fst (spectrum [1; 1; 1; 1; 1] Scenario.five_values (ones 5)) = [PInf; PInf].
Proof.
  rewrite spectrum_frequencies_no_span; [reflexivity | discriminate |].
  cbn [py_min py_max fold_left].
  unfold Rmin, Rmax; repeat destruct (Rle_dec _ _); lra.
Qed.

(** C2, the failing input.  With padding on and a selection that keeps no
    sample, [zeropadding] indexes [xs[-1]] on an empty array. *)
Theorem calc_fft_padded_empty_raises :
  calc_fft (Some Scenario.five_samples) (10, 20) "hanning" true = Raise IndexError
  /\ calc_fft (Some Scenario.five_samples) (0, 0) "hanning" true = Raise IndexError.
Proof.
  split.
  - apply calc_fft_padded_empty. apply selected_none_of_five.
  - apply calc_fft_padded_empty. apply selected_empty_range. lra.
Qed.

(** Without padding the empty selection is handled: the spectrum is empty. *)
Lemma calc_fft_unpadded_empty (data : dataset) (lo hi : R) (windowtype : string) :
  selected lo hi data = [] ->
  calc_fft (Some data) (lo, hi) windowtype false
  = Ok (column0 data, column1 data, [], []).
Proof.
  intros Hsel. rewrite calc_fft_unpadded, Hsel. reflexivity.
Qed.

(** X16.  For a dataset, the engine raises exactly when padding is on
    and the selection keeps no sample; in every other case it returns. *)
Lemma calc_fft_raises_iff (data : dataset) (lo hi : R) (windowtype : string)
    (zeropad : bool) :
  (exists e, calc_fft (Some data) (lo, hi) windowtype zeropad = Raise e)
  <-> zeropad = true /\ selected lo hi data = [].
Proof.
  split.
  - intros [e He]. destruct zeropad.
    + split; [reflexivity|].
      destruct (selected lo hi data) as [|s sel] eqn:Hsel; [reflexivity|].
      assert (Hne : column0 (selected lo hi data) <> [])
        by (rewrite Hsel; discriminate).
      rewrite (calc_fft_padded data lo hi windowtype Hne) in He. discriminate.
    + rewrite calc_fft_unpadded in He. discriminate.
  - intros [-> Hsel]. exists IndexError. apply calc_fft_padded_empty; exact Hsel.
Qed.

Lemma calc_fft_raises_iff_witness :
  exists e, calc_fft (Some Scenario.five_samples) (10, 20) "boxcar" true = Raise e.
Proof.
  apply (calc_fft_raises_iff Scenario.five_samples 10 20 "boxcar" true).
  split; [reflexivity | apply selected_none_of_five].
Defined.

(** C4, as stated, fails.  With the range (1/2, 5/2) the selection keeps
    the samples at times 1 and 2, yet the time sequences returned are all
    five samples. *)
Lemma calc_fft_returns_unfiltered :
  exists spec_xs spec_ys,
    calc_fft (Some Scenario.five_samples) (1 / 2, 5 / 2) "boxcar" false
    = Ok (Scenario.five_times, Scenario.five_values, spec_xs, spec_ys)
    /\ range_filter Scenario.five_samples (1 / 2, 5 / 2) = ([1; 2], [1; 0])
    /\ Scenario.five_times <> [1; 2]
    /\ Scenario.five_values <> [1; 0].
Proof.
  eexists _, _. split; [apply calc_fft_unpadded|].
  split; [rewrite range_filter_selected, selected_two_of_five; reflexivity|].
  split; intros E; apply (f_equal (@List.length R)) in E; discriminate.
Qed.

(** C4, amended.  Whenever the engine returns for a dataset (padding off,
    or a selection that keeps a sample), the time sequences it returns
    are the two full columns of the dataset, whatever the range, window
    and padding: not filtered, not padded, not windowed. *)
Theorem calc_fft_time_sequences
    (data : dataset) (lo hi : R) (windowtype : string) (zeropad : bool) :
  zeropad = false \/ selected lo hi data <> [] ->
  exists spec_xs spec_ys,
    calc_fft (Some data) (lo, hi) windowtype zeropad
    = Ok (column0 data, column1 data, spec_xs, spec_ys).
Proof.
  intros H. destruct zeropad.
  - destruct H as [H | H]; [discriminate|].
    eexists _, _. apply calc_fft_padded. apply column0_nonempty; exact H.
  - eexists _, _. apply calc_fft_unpadded.
Qed.

Lemma calc_fft_time_sequences_witness :
  exists spec_xs spec_ys,
    calc_fft (Some Scenario.five_samples) (10, 20) "blackman" false
    = Ok (Scenario.five_times, Scenario.five_values, spec_xs, spec_ys).
Proof.
  apply (calc_fft_time_sequences Scenario.five_samples 10 20 "blackman" false).
  left; reflexivity.
Defined.

End Engine.

(** ** Splitting a path *)

Module Paths.
Import OsPath.
Open Scope string_scope.

Lemma append_length (s1 s2 : string) :
  String.length (s1 ++ s2) = (String.length s1 + String.length s2)%nat.
Proof. induction s1 as [|c s1 IH]; simpl; [reflexivity | rewrite IH; reflexivity]. Qed.

Lemma append_assoc (s t u : string) : (s ++ t) ++ u = s ++ t ++ u.
Proof. induction s as [|c s IH]; simpl; [reflexivity | rewrite IH; reflexivity]. Qed.

Lemma append_empty_r (s : string) : s ++ "" = s.
Proof. induction s as [|c s IH]; simpl; [reflexivity | rewrite IH; reflexivity]. Qed.

Lemma occurs_in_self (s : string) : Readings.occurs_in s s.
Proof. exists "", "". simpl. rewrite append_empty_r. reflexivity. Qed.

Lemma occurs_in_prefix (s t : string) : Readings.occurs_in s (s ++ t).
Proof. exists "", t. reflexivity. Qed.

Lemma occurs_in_suffix (s a t : string) :
  Readings.occurs_in s t -> Readings.occurs_in s (a ++ t).
Proof.
  intros (b & c & ->). exists (a ++ b), c. rewrite append_assoc. reflexivity.
Qed.

Lemma rfind_get (c : ascii) (p : string) (i : nat) :
  rfind c p = Some i -> String.get i p = Some c /\ (i < String.length p)%nat.
Proof.
  revert i; induction p as [|a p IH]; intros i H; simpl in H; [discriminate|].
  destruct (rfind c p) as [j|].
  - injection H as <-. destruct (IH j eq_refl) as [Hg Hl].
    simpl. split; [exact Hg | lia].
  - destruct (Ascii.eqb_spec a c) as [->|]; [|discriminate].
    injection H as <-. simpl. split; [reflexivity | lia].
Qed.

(** [rfind] finds the last occurrence: none lies behind it. *)
Lemma rfind_last (c : ascii) (p : string) (i j : nat) :
  rfind c p = Some i -> (i < j)%nat -> String.get j p <> Some c.
Proof.
  revert i j; induction p as [|a p IH]; intros i j H Hij; simpl in H; [discriminate|].
  destruct j as [|j]; [lia|]. simpl.
  destruct (rfind c p) as [k|] eqn:E.
  - injection H as <-. apply (IH k j eq_refl). lia.
  - clear H Hij IH. revert j.
    induction p as [|b p IHp]; intros j; [destruct j; discriminate|].
    simpl in E. destruct (rfind c p) as [k|]; [discriminate|].
    destruct (Ascii.eqb_spec b c) as [->|Hne]; [discriminate|].
    destruct j as [|j]; simpl.
    + intros H; injection H as ->; contradiction.
    + apply IHp; reflexivity.
Qed.

Lemma substring_split (p : string) (d : nat) :
  (d <= String.length p)%nat ->
  substring 0 d p ++ substring d (String.length p - d) p = p.
Proof.
  revert p; induction d as [|d IH]; intros p Hd.
  - rewrite Nat.sub_0_r.
    replace (substring 0 0 p) with "" by (destruct p; reflexivity).
    simpl. clear Hd. induction p as [|c p IHp]; simpl; [reflexivity|].
    rewrite IHp. reflexivity.
  - destruct p as [|c p]; simpl in Hd; [lia|].
    simpl. rewrite IH by lia. reflexivity.
Qed.

Lemma substring_from (p : string) (d : nat) (c : ascii) :
  String.get d p = Some c ->
  exists rest, substring d (String.length p - d) p = String c rest.
Proof.
  revert p; induction d as [|d IH]; intros p Hg.
  - destruct p as [|a p]; simpl in Hg; [discriminate|].
    injection Hg as ->. simpl. eexists; reflexivity.
  - destruct p as [|a p]; simpl in Hg; [discriminate|].
    simpl. apply IH; exact Hg.
Qed.

Lemma splitext_rejoin (p : string) :
  fst (splitext p) ++ snd (splitext p) = p.
Proof.
  unfold splitext.
  destruct (rfind extsep p) as [d|] eqn:Hd; [|apply append_empty_r].
  destruct (_ && _)%bool; [|apply append_empty_r].
  cbn [fst snd]. apply substring_split.
  apply rfind_get in Hd. lia.
Qed.

Lemma splitext_extension (p : string) :
  snd (splitext p) = "" \/ exists rest, snd (splitext p) = String extsep rest.
Proof.
  unfold splitext.
  destruct (rfind extsep p) as [d|] eqn:Hd; [|left; reflexivity].
  destruct (_ && _)%bool; [|left; reflexivity].
  right. cbn [snd]. apply substring_from. apply rfind_get in Hd. tauto.
Qed.

Lemma append_cancel_l (s t u : string) : s ++ t = s ++ u -> t = u.
Proof.
  induction s as [|c s IH]; simpl; intros H; [exact H|].
  injection H as H. apply IH; exact H.
Qed.

Lemma insert_differs (root inserted ext : string) :
  inserted <> "" -> root ++ inserted ++ ext <> root ++ ext.
Proof.
  intros Hne H. apply append_cancel_l in H.
  apply (f_equal String.length) in H. rewrite append_length in H.
  destruct inserted; [contradiction | simpl in H; lia].
Qed.

Example splitext_data_csv : splitext "data.csv" = ("data", ".csv").
Proof. reflexivity. Qed.

Example splitext_two_dots : splitext "run.1/a.tar.gz" = ("run.1/a.tar", ".gz").
Proof. reflexivity. Qed.

Example splitext_hidden : splitext "dir/.hidden" = ("dir/.hidden", "").
Proof. reflexivity. Qed.

Example splitext_dot_in_directory : splitext "run.1/trace" = ("run.1/trace", "").
Proof. reflexivity. Qed.

End Paths.

(** ** Limits of the frequency axis *)

Module AxisLimits.
Import Numpy TSTS Readings.

Lemma finite_values (l : list xreal) :
  Forall finite l -> exists rs, l = map Fin rs.
Proof.
  induction l as [|v l IH]; intros H; [exists []; reflexivity|].
  inversion H as [|v' l' Hv Hl]; subst.
  destruct (IH Hl) as [rs ->].
  destruct v as [r| | |]; try contradiction.
  exists (r :: rs). reflexivity.
Qed.

Lemma fold_xmin2_finite (t : list R) (x : R) :
  fold_left xmin2 (map Fin t) (Fin x) = Fin (fold_left Rmin t x).
Proof.
  revert x; induction t as [|y t IH]; intros x; simpl; [reflexivity|]. apply IH.
Qed.

Lemma fold_xmax2_finite (t : list R) (x : R) :
  fold_left xmax2 (map Fin t) (Fin x) = Fin (fold_left Rmax t x).
Proof.
  revert x; induction t as [|y t IH]; intros x; simpl; [reflexivity|]. apply IH.
Qed.

(** On finite values the limits are those of [calc_range]. *)
Lemma xcalc_range_finite (rs : list R) (margin : R) :
  xcalc_range (map Fin rs) margin
  = (Fin (fst (calc_range rs margin)), Fin (snd (calc_range rs margin))).
Proof.
  destruct rs as [|r t]; [reflexivity|].
  unfold xcalc_range, calc_range, xamin, xamax, amin, amax.
  cbn [map]. rewrite fold_xmin2_finite, fold_xmax2_finite. reflexivity.
Qed.

Lemma set_lim_finite (l : list xreal) :
  Forall finite l -> exists lim, set_lim (xcalc_range l 0) = Ok lim.
Proof.
  intros H. destruct (finite_values l H) as [rs ->].
  rewrite xcalc_range_finite. eexists. reflexivity.
Qed.

(** A positive value is a finite one or [+inf]. *)
Lemma fold_xmax2_PInf (t : list xreal) :
  Forall positive t -> fold_left xmax2 t PInf = PInf.
Proof.
  induction t as [|v t IH]; intros H; simpl; [reflexivity|].
  inversion H as [|v' t' Hv Ht]; subst.
  destruct v; try contradiction; apply IH; exact Ht.
Qed.

Lemma fold_xmax2_reaches_PInf (t : list xreal) (x : xreal) :
  Forall positive (x :: t) -> ~ Forall finite (x :: t) ->
  fold_left xmax2 t x = PInf.
Proof.
  revert x; induction t as [|v t IH]; intros x Hp Hf.
  - inversion Hp as [|x' t' Hx _]; subst.
    destruct x; try contradiction; [|reflexivity].
    exfalso. apply Hf. repeat constructor.
  - inversion Hp as [|x' t' Hx Ht]; subst.
    inversion Ht as [|v' t'' Hv Ht']; subst.
    simpl.
    destruct x as [rx| | |]; try contradiction;
      destruct v as [rv| | |]; try contradiction; cbn [xmax2].
    + apply IH; [constructor; [exact I || (simpl; unfold Rmax;
                   destruct (Rle_dec rx rv); assumption) | exact Ht']|].
      intros Hall. apply Hf. inversion Hall; subst. repeat constructor; assumption.
    + apply fold_xmax2_PInf; exact Ht'.
    + apply fold_xmax2_PInf; exact Ht'.
    + apply fold_xmax2_PInf; exact Ht'.
Qed.

Lemma fold_xmin2_regular (t : list xreal) (x : xreal) :
  Forall positive (x :: t) ->
  (exists r, fold_left xmin2 t x = Fin r) \/ fold_left xmin2 t x = PInf.
Proof.
  revert x; induction t as [|v t IH]; intros x Hp.
  - inversion Hp as [|x' t' Hx _]; subst.
    destruct x; try contradiction; [left; eexists; reflexivity | right; reflexivity].
  - inversion Hp as [|x' t' Hx Ht]; subst.
    inversion Ht as [|v' t'' Hv Ht']; subst.
    simpl. apply IH. constructor; [|exact Ht'].
    destruct x as [rx| | |]; try contradiction;
      destruct v as [rv| | |]; try contradiction; cbn [xmin2 positive]; try exact I;
      try assumption.
    unfold Rmin. destruct (Rle_dec rx rv); assumption.
Qed.

(** With an infinite frequency the requested limits are nan, and
    [set_xlim] raises. *)
Lemma set_lim_infinite (l : list xreal) :
  Forall positive l -> ~ Forall finite l ->
  set_lim (xcalc_range l 0) = Raise ValueError.
Proof.
  intros Hp Hf.
  destruct l as [|x t]; [exfalso; apply Hf; constructor|].
  unfold xcalc_range, xamin, xamax.
  rewrite (fold_xmax2_reaches_PInf t x Hp Hf).
  assert (Hz : forall v, (exists r, v = Fin r) \/ v = PInf ->
                         xtimes 0 (xsub PInf v) = NaN).
  { intros v [[r ->] | ->]; cbn [xsub xopp xadd xtimes];
      try reflexivity.
    destruct (Req_EM_T 0 0); [reflexivity | contradiction]. }
  rewrite (Hz _ (fold_xmin2_regular t x Hp)).
  destruct (fold_xmin2_regular t x Hp) as [[r ->] | ->]; reflexivity.
Qed.

Lemma calc_fft_positive (d : option dataset) (range : R * R) (windowtype : string)
    (zeropad : bool) (xs ys : list R) (spec_xs : list xreal) (spec_ys : list R) :
  calc_fft d range windowtype zeropad = Ok (xs, ys, spec_xs, spec_ys) ->
  Forall positive spec_xs.
Proof.
  destruct d as [d|]; [|intros H; injection H as <- <- <- <-; constructor].
  destruct range as [lo hi]. intros H.
  destruct zeropad.
  - assert (Hne : column0 (selected lo hi d) <> []).
    { apply Engine.column0_nonempty. intros Hsel.
      rewrite (Engine.calc_fft_padded_empty d lo hi windowtype Hsel) in H.
      discriminate. }
    rewrite (Engine.calc_fft_padded d lo hi windowtype Hne) in H.
    injection H as <- <- <- <-. apply FrequencyAxis.spectrum_positive.
  - rewrite Engine.calc_fft_unpadded in H.
    injection H as <- <- <- <-. apply FrequencyAxis.spectrum_positive.
Qed.

End AxisLimits.

(** ** The controller *)

Module Controller.
Import Numpy TSTS Readings RangeFilter Engine AxisLimits.

Lemma update_plot_engine_raises (force : bool) (st : session) (e : exn) :
  calc_fft (data st) (fft_range st) (window_button st) (zeropad_button st) = Raise e ->
  update_plot force st = Raise (e, st).
Proof. intros H. unfold update_plot. rewrite H. reflexivity. Qed.

Lemma update_plot_plain (force : bool) (st : session) (xs ys : list R)
    (spec_xs : list xreal) (spec_ys : list R) :
  calc_fft (data st) (fft_range st) (window_button st) (zeropad_button st)
  = Ok (xs, ys, spec_xs, spec_ys) ->
  (rescale_button st || force)%bool = false ->
  update_plot force st
  = Ok (set_spectrum (combine spec_xs spec_ys) (xs, ys) (spec_xs, spec_ys) st).
Proof.
  intros H Hr. unfold update_plot. rewrite H. cbn [raise_in bind].
  rewrite Hr. reflexivity.
Qed.

Lemma update_plot_rescaled (force : bool) (st : session) (xs ys : list R)
    (spec_xs : list xreal) (spec_ys : list R) (xlim : R * R) :
  calc_fft (data st) (fft_range st) (window_button st) (zeropad_button st)
  = Ok (xs, ys, spec_xs, spec_ys) ->
  (rescale_button st || force)%bool = true ->
  set_lim (xcalc_range spec_xs 0) = Ok xlim ->
  update_plot force st
  = Ok (set_ax1_limits xlim (calc_range spec_ys (1 / 10))
          (set_ax0_limits (calc_range xs 0) (calc_range ys (1 / 10))
             (set_spectrum (combine spec_xs spec_ys) (xs, ys) (spec_xs, spec_ys) st))).
Proof.
  intros H Hr Hl. unfold update_plot. rewrite H. cbn [raise_in bind].
  rewrite Hr, Hl. reflexivity.
Qed.

Lemma update_plot_limits_raise (force : bool) (st : session) (xs ys : list R)
    (spec_xs : list xreal) (spec_ys : list R) (e : exn) :
  calc_fft (data st) (fft_range st) (window_button st) (zeropad_button st)
  = Ok (xs, ys, spec_xs, spec_ys) ->
  (rescale_button st || force)%bool = true ->
  set_lim (xcalc_range spec_xs 0) = Raise e ->
  update_plot force st
  = Raise (e, set_ax0_limits (calc_range xs 0) (calc_range ys (1 / 10))
                (set_spectrum (combine spec_xs spec_ys) (xs, ys) (spec_xs, spec_ys) st)).
Proof.
  intros H Hr Hl. unfold update_plot. rewrite H. cbn [raise_in bind].
  rewrite Hr, Hl. reflexivity.
Qed.

(** Returned or raised, [update_plot] leaves the dataset, the file name,
    the range, the widgets and the span as they were. *)
Lemma update_plot_frame (force : bool) (st : session) :
  let st' := session_after (update_plot force st) in
  data st' = data st /\ filename st' = filename st
  /\ fft_range st' = fft_range st
  /\ window_button st' = window_button st
  /\ zeropad_button st' = zeropad_button st
  /\ rescale_button st' = rescale_button st
  /\ span_visible st' = span_visible st /\ closed st' = closed st.
Proof.
  unfold update_plot.
  destruct (calc_fft _ _ _ _) as [[[[xs ys] sx] sy] | e]; cbn [raise_in bind];
    [|cbn; repeat split].
  destruct (rescale_button st || force)%bool; [|cbn; repeat split].
  destruct (set_lim _) as [xlim | e]; cbn; repeat split.
Qed.

(** When the engine returns, the stored spectrum is replaced, whether
    the limits are then accepted or not. *)
Lemma update_plot_stores (force : bool) (st : session) (xs ys : list R)
    (spec_xs : list xreal) (spec_ys : list R) :
  calc_fft (data st) (fft_range st) (window_button st) (zeropad_button st)
  = Ok (xs, ys, spec_xs, spec_ys) ->
  spec_data (session_after (update_plot force st)) = combine spec_xs spec_ys
  /\ ax0_line (session_after (update_plot force st)) = (xs, ys)
  /\ ax1_line (session_after (update_plot force st)) = (spec_xs, spec_ys).
Proof.
  intros H. unfold update_plot. rewrite H. cbn [raise_in bind].
  destruct (rescale_button st || force)%bool; [|cbn; repeat split].
  destruct (set_lim _) as [xlim | e]; cbn; repeat split.
Qed.

(** It returns exactly when the limits are not asked for or every
    frequency is finite. *)
Lemma update_plot_returns (force : bool) (st : session) (xs ys : list R)
    (spec_xs : list xreal) (spec_ys : list R) :
  calc_fft (data st) (fft_range st) (window_button st) (zeropad_button st)
  = Ok (xs, ys, spec_xs, spec_ys) ->
  (rescale_button st || force)%bool = false \/ Forall finite spec_xs ->
  exists st', update_plot force st = Ok st'.
Proof.
  intros H Hc.
  destruct (rescale_button st || force)%bool eqn:Hr.
  - destruct Hc as [Hc | Hc]; [discriminate|].
    destruct (set_lim_finite spec_xs Hc) as [xlim Hl].
    eexists. apply (update_plot_rescaled force st xs ys spec_xs spec_ys xlim H Hr Hl).
  - eexists. apply (update_plot_plain force st xs ys spec_xs spec_ys H Hr).
Qed.

Lemma update_plot_refused (force : bool) (st : session) (xs ys : list R)
    (spec_xs : list xreal) (spec_ys : list R) :
  calc_fft (data st) (fft_range st) (window_button st) (zeropad_button st)
  = Ok (xs, ys, spec_xs, spec_ys) ->
  (rescale_button st || force)%bool = true -> ~ Forall finite spec_xs ->
  exists st', update_plot force st = Raise (ValueError, st').
Proof.
  intros H Hr Hf.
  pose proof (set_lim_infinite spec_xs (calc_fft_positive _ _ _ _ _ _ _ _ H) Hf) as Hl.
  eexists. apply (update_plot_limits_raise force st xs ys spec_xs spec_ys _ H Hr Hl).
Qed.

(** The first [update_plot] works on the range (0, 0), which keeps nothing. *)
Lemma calc_fft_initial (d : option dataset) (windowtype : string) :
  exists xs ys, calc_fft d (0, 0) windowtype false = Ok (xs, ys, [], []).
Proof.
  destruct d as [d|].
  - eexists _, _. apply calc_fft_unpadded_empty. apply selected_empty_range. lra.
  - eexists _, _. reflexivity.
Qed.

Lemma fft_timesignal_returns (d : dialog) :
  exists st,
    fft_timesignal d = Ok st
    /\ data st = chosen_data d /\ filename st = chosen_name d
    /\ fft_range st = (0, 0) /\ spec_data st = []
    /\ window_button st = "hanning"%string
    /\ zeropad_button st = false /\ rescale_button st = true.
Proof.
  destruct (calc_fft_initial (chosen_data d) "hanning") as (xs & ys & H).
  eexists. unfold fft_timesignal.
  rewrite (update_plot_rescaled true (initial_session d) xs ys [] [] (0, 1));
    [|exact H | reflexivity | reflexivity].
  split; [reflexivity|]. cbn. repeat split.
Qed.

(** The session of the scenario, spelled out. *)
Lemma loaded_and_selected_session :
  exists st1 y1 y2,
    Scenario.loaded_and_selected = Ok st1
    /\ data st1 = Some Scenario.five_samples
    /\ filename st1 = "data.csv"%string
    /\ fft_range st1 = (-1, 5)
    /\ spec_data st1 = [(Fin (1 / 2), y1); (Fin (1 / 4), y2)]
    /\ ax1_line st1 = ([Fin (1 / 2); Fin (1 / 4)], [y1; y2])
    /\ window_button st1 = "hanning"%string
    /\ zeropad_button st1 = false /\ rescale_button st1 = true.
Proof.
  destruct (five_samples_frequencies "hanning") as (y1 & y2 & H).
  destruct (calc_fft_initial (Some Scenario.five_samples) "hanning") as (xs & ys & H0).
  unfold Scenario.loaded_and_selected, fft_timesignal.
  rewrite (update_plot_rescaled true (initial_session Scenario.loaded) xs ys [] [] (0, 1));
    [|exact H0 | reflexivity | reflexivity].
  cbn [bind]. unfold onselect.
  destruct (set_lim_finite [Fin (1 / 2); Fin (1 / 4)]) as [xlim Hl];
    [repeat constructor|].
  eexists _, y1, y2.
  rewrite (update_plot_rescaled false _ Scenario.five_times Scenario.five_values
             [Fin (1 / 2); Fin (1 / 4)] [y1; y2] xlim);
    [|exact H | reflexivity | exact Hl].
  split; [reflexivity|]. cbn. repeat split.
Qed.

(** Ticking the padding box on the freshly loaded session, whose range
    is still (0, 0), raises out of the callback. *)
Lemma click_zeropad_on_fresh_session :
  exists st st',
    fft_timesignal Scenario.loaded = Ok st
    /\ click_zeropad st = Raise (IndexError, st')
    /\ zeropad_button st' = true /\ spec_data st' = spec_data st.
Proof.
  destruct (fft_timesignal_returns Scenario.loaded)
    as (st & Hst & Hd & _ & Hr & _ & _ & Hz & _).
  exists st. eexists. split; [exact Hst|].
  unfold click_zeropad. rewrite Hz.
  rewrite (update_plot_engine_raises false _ IndexError).
  - repeat split.
  - cbn [data fft_range window_button zeropad_button set_zeropad_button negb].
    rewrite Hd, Hr. apply calc_fft_padded_empty. apply selected_empty_range. lra.
Qed.

Section Keys.

Variable format_range : R * R -> string.

Lemma press_enter (d : dialog) (st : session) :
  press format_range "enter" d st
  = Ok (set_spec_data
          (fst (save_data format_range (spec_data st) (filename st) (fft_range st)
                  (window_button st) (zeropad_button st))) st,
        [Savetxt
           (snd (save_data format_range (spec_data st) (filename st) (fft_range st)
                   (window_button st) (zeropad_button st)))]).
Proof.
  unfold press. cbn [String.eqb Ascii.eqb Bool.eqb].
  destruct (save_data _ _ _ _ _ _); reflexivity.
Qed.

Lemma press_open (d : dialog) (st : session) :
  press format_range "ctrl+o" d st
  = bind (update_plot false (set_file d st)) (fun st1 => Ok (st1, [])).
Proof. reflexivity. Qed.

Lemma press_open_after (d : dialog) (st : session) :
  state_after (press format_range "ctrl+o" d st)
  = session_after (update_plot false (set_file d st)).
Proof.
  rewrite press_open.
  destruct (update_plot false (set_file d st)) as [st1 | [e st1]]; reflexivity.
Qed.

Lemma save_data_array (a : list (xreal * R)) (fname : string) (range : R * R)
    (window : string) (zeropad : bool) :
  fst (save_data format_range a fname range window zeropad) = scale_column0 a
  /\ rows (snd (save_data format_range a fname range window zeropad))
     = scale_column0 a.
Proof.
  unfold save_data. destruct (OsPath.splitext fname); split; reflexivity.
Qed.

Lemma save_data_header (a : list (xreal * R)) (fname : string) (range : R * R)
    (window : string) (zeropad : bool) :
  header (snd (save_data format_range a fname range window zeropad))
  = ("Range of window: " ++ format_range range ++ newline
     ++ "Windowfunction: " ++ window ++ newline
     ++ "Zeropadding: " ++ format_bool zeropad)%string.
Proof. unfold save_data. destruct (OsPath.splitext fname); reflexivity. Qed.

Lemma save_data_path (a : list (xreal * R)) (fname : string) (range : R * R)
    (window : string) (zeropad : bool) :
  path (snd (save_data format_range a fname range window zeropad))
  = (fst (OsPath.splitext fname) ++ "FFT" ++ snd (OsPath.splitext fname))%string.
Proof. unfold save_data. destruct (OsPath.splitext fname); reflexivity. Qed.

(** One call of [save_data]: the rows written are the rows handed in with
    the frequency divided by 1000000, and the header contains the
    rendered range, the window name and the text of the flag. *)
Lemma save_data_call (a : list (xreal * R)) (fname : string) (range : R * R)
    (window : string) (zeropad : bool) :
  let call := snd (save_data format_range a fname range window zeropad) in
  map fst (rows call) = map (fun f => xdivide f 1000000) (map fst a)
  /\ map snd (rows call) = map snd a
  /\ occurs_in (format_range range) (header call)
  /\ occurs_in window (header call)
  /\ occurs_in (if zeropad then "True" else "False")%string (header call).
Proof.
  intros call. subst call.
  rewrite (proj2 (save_data_array _ _ _ _ _)), save_data_header.
  unfold scale_column0. rewrite !map_map. cbn [fst snd].
  split; [reflexivity|].
  split; [reflexivity|].
  split.
  { apply Paths.occurs_in_suffix, Paths.occurs_in_prefix. }
  split.
  { do 4 apply Paths.occurs_in_suffix. apply Paths.occurs_in_prefix. }
  do 7 apply Paths.occurs_in_suffix.
  destruct zeropad; apply Paths.occurs_in_self.
Qed.

(** Evaluate what consecutive saves make of a stored array that [Hs]
    spells out. *)
Ltac evaluate_saves Hs :=
  repeat first
    [ rewrite (proj1 (save_data_array _ _ _ _ _))
    | rewrite (proj2 (save_data_array _ _ _ _ _))
    | rewrite Hs
    | progress cbn [set_spec_data spec_data data filename fft_range window_button
                    zeropad_button ax1_line scale_column0 map fst snd xdivide] ].

(** C3, the failing input.  In the session of the scenario the stored
    spectrum holds the frequencies 1/2 and 1/4.  The save key hands that
    array to [save_data], whose in-place division leaves the session with
    the frequencies 1/2000000 and 1/4000000; the dataset, file name,
    range and settings stay as they were.  A second save then writes the
    frequencies divided by 1000000 twice. *)
Theorem save_rescales_stored_spectrum :
  exists st1 st2 st3 call call2 y1 y2,
    Scenario.loaded_and_selected = Ok st1
    /\ spec_data st1 = [(Fin (1 / 2), y1); (Fin (1 / 4), y2)]
    /\ press format_range "enter" Scenario.loaded st1 = Ok (st2, [Savetxt call])
    /\ spec_data st2 = [(Fin (1 / 2 / 1000000), y1); (Fin (1 / 4 / 1000000), y2)]
    /\ spec_data st2 <> spec_data st1
    /\ data st2 = data st1 /\ filename st2 = filename st1
    /\ fft_range st2 = fft_range st1
    /\ window_button st2 = window_button st1
    /\ zeropad_button st2 = zeropad_button st1
    /\ press format_range "enter" Scenario.loaded st2 = Ok (st3, [Savetxt call2])
    /\ rows call = [(Fin (1 / 2 / 1000000), y1); (Fin (1 / 4 / 1000000), y2)]
    /\ rows call2 = [(Fin (1 / 2 / 1000000 / 1000000), y1);
                     (Fin (1 / 4 / 1000000 / 1000000), y2)].
Proof.
  destruct loaded_and_selected_session as (st1 & y1 & y2 & H1 & _ & _ & _ & Hs & _).
  exists st1. eexists _, _, _, _, y1, y2.
  split; [exact H1|].
  split; [exact Hs|].
  split; [apply press_enter|].
  rewrite press_enter.
  repeat split; evaluate_saves Hs; try reflexivity.
  intros E. injection E as E _. lra.
Qed.

(** C9, the failing input.  In the session of the scenario the spectrum
    computed and plotted has the frequencies 1/2 and 1/4.  The first save
    writes them divided by 1000000.  The save key pressed again, nothing
    recomputed in between, is handed the array that the first save
    divided, and writes the frequencies 1/2 and 1/4 divided by 1000000
    twice, while the header names the same range, window and flag. *)
Theorem second_save_divides_twice :
  exists st1 st2 st3 call call2 y1 y2,
    Scenario.loaded_and_selected = Ok st1
    /\ ax1_line st1 = ([Fin (1 / 2); Fin (1 / 4)], [y1; y2])
    /\ press format_range "enter" Scenario.loaded st1 = Ok (st2, [Savetxt call])
    /\ ax1_line st2 = ax1_line st1
    /\ press format_range "enter" Scenario.loaded st2 = Ok (st3, [Savetxt call2])
    /\ map fst (rows call) = [Fin (1 / 2 / 1000000); Fin (1 / 4 / 1000000)]
    /\ map fst (rows call2)
       = [Fin (1 / 2 / 1000000 / 1000000); Fin (1 / 4 / 1000000 / 1000000)]
    /\ map fst (rows call2)
       <> map (fun f => xdivide f 1000000) [Fin (1 / 2); Fin (1 / 4)]
    /\ header call2 = header call
    /\ path call2 = path call.
Proof.
  destruct loaded_and_selected_session
    as (st1 & y1 & y2 & H1 & _ & _ & _ & Hs & Hl & _).
  exists st1. eexists _, _, _, _, y1, y2.
  split; [exact H1|].
  split; [exact Hl|].
  split; [apply press_enter|].
  rewrite press_enter.
  repeat split; rewrite ?save_data_header, ?save_data_path;
    evaluate_saves Hs; try reflexivity.
  intros E. injection E as E _.
  assert (0 < / 1000000) by (apply Rinv_0_lt_compat; lra).
  unfold Rdiv in E. nra.
Qed.

(** C5, amended.  The first load starts from the range (0, 0), so the
    session it leaves has the chosen dataset and file name, that range
    and an empty spectrum.  A later open-file key never resets the range:
    whether the recompute that follows returns or raises, the session
    afterwards holds the new dataset and file name and the range and
    settings it had.  The recompute is over that range of the new
    dataset.  If the engine raises, the handler raises with it and
    nothing else is written.  If the engine returns, the stored spectrum
    becomes the one it computed, and the handler returns unless
    rescaling is on and a frequency is infinite, in which case it raises
    a [ValueError]. *)
Theorem load_selection_range (d : dialog) :
  (exists st,
      fft_timesignal d = Ok st
      /\ data st = chosen_data d /\ filename st = chosen_name d
      /\ fft_range st = (0, 0) /\ spec_data st = [])
  /\ (forall st,
        data (state_after (press format_range "ctrl+o" d st)) = chosen_data d
        /\ filename (state_after (press format_range "ctrl+o" d st)) = chosen_name d
        /\ fft_range (state_after (press format_range "ctrl+o" d st)) = fft_range st
        /\ window_button (state_after (press format_range "ctrl+o" d st))
           = window_button st
        /\ zeropad_button (state_after (press format_range "ctrl+o" d st))
           = zeropad_button st
        /\ rescale_button (state_after (press format_range "ctrl+o" d st))
           = rescale_button st)
  /\ (forall st e,
        calc_fft (chosen_data d) (fft_range st) (window_button st) (zeropad_button st)
        = Raise e ->
        press format_range "ctrl+o" d st = Raise (e, set_file d st))
  /\ (forall st xs ys spec_xs spec_ys,
        calc_fft (chosen_data d) (fft_range st) (window_button st) (zeropad_button st)
        = Ok (xs, ys, spec_xs, spec_ys) ->
        spec_data (state_after (press format_range "ctrl+o" d st))
        = combine spec_xs spec_ys
        /\ (rescale_button st = false \/ Forall finite spec_xs ->
            exists st', press format_range "ctrl+o" d st = Ok (st', []))
        /\ (rescale_button st = true -> ~ Forall finite spec_xs ->
            exists st', press format_range "ctrl+o" d st = Raise (ValueError, st'))).
Proof.
  split.
  { destruct (fft_timesignal_returns d) as (st & H & Hd & Hf & Hr & Hs & _).
    exists st. repeat split; assumption. }
  split.
  { intros st. rewrite press_open_after.
    pose proof (update_plot_frame false (set_file d st))
      as (Hd & Hf & Hr & Hw & Hz & Hs & _).
    cbv zeta in *. rewrite Hd, Hf, Hr, Hw, Hz, Hs. repeat split. }
  split.
  { intros st e H. rewrite press_open.
    rewrite (update_plot_engine_raises false (set_file d st) e) by exact H.
    reflexivity. }
  intros st xs ys spec_xs spec_ys H. split; [|split].
  - rewrite press_open_after.
    apply (update_plot_stores false (set_file d st) xs ys spec_xs spec_ys). exact H.
  - intros Hc. rewrite press_open.
    destruct (update_plot_returns false (set_file d st) xs ys spec_xs spec_ys H)
      as [st' ->].
    + cbn [rescale_button set_file]. rewrite Bool.orb_false_r.
      destruct Hc as [Hc | Hc]; [left; exact Hc | right; exact Hc].
    + exists st'. reflexivity.
  - intros Hr Hf. rewrite press_open.
    destruct (update_plot_refused false (set_file d st) xs ys spec_xs spec_ys H)
      as [st' ->].
    + cbn [rescale_button set_file]. rewrite Hr. reflexivity.
    + exact Hf.
    + exists st'. reflexivity.
Qed.

(** C10, the failing input.  The dataset is loaded from "sigFFT.png";
    the figure is then saved as "sig.png", which makes "sig.png" the file
    name of the session; the save key then writes the spectrum to
    "sigFFT.png", the file the dataset was loaded from. *)
Theorem save_overwrites_loaded_file :
  exists st0 st1 st2 call,
    fft_timesignal Scenario.loaded_sigFFT = Ok st0
    /\ filename st0 = "sigFFT.png"%string
    /\ press format_range "ctrl+s" Scenario.figure_sig st0
       = Ok (st1, [Savefig "sig.png"%string])
    /\ data st1 = Some Scenario.five_samples
    /\ filename st1 = "sig.png"%string
    /\ press format_range "enter" Scenario.figure_sig st1 = Ok (st2, [Savetxt call])
    /\ path call = "sigFFT.png"%string
    /\ path call = chosen_name Scenario.loaded_sigFFT.
Proof.
  destruct (fft_timesignal_returns Scenario.loaded_sigFFT)
    as (st0 & H0 & Hd & Hf & _).
  exists st0. eexists _, _, _.
  split; [exact H0|]. split; [exact Hf|].
  split; [reflexivity|].
  split; [exact Hd|]. split; [reflexivity|].
  split; [apply press_enter|].
  rewrite save_data_path. split; reflexivity.
Qed.

End Keys.

(** C5, as stated, fails.  In the session of the scenario the range is
    (-1, 5).  Opening a file from there leaves the range at (-1, 5), not
    (0, 0), and the spectrum computed right after is not empty. *)
Lemma open_file_keeps_selection :
  exists st1 st2,
    Scenario.loaded_and_selected = Ok st1
    /\ press Scenario.render_range "ctrl+o" Scenario.loaded st1 = Ok (st2, [])
    /\ fft_range st2 = (-1, 5)
    /\ fft_range st2 <> (0, 0)
    /\ spec_data st2 <> [].
Proof.
  destruct loaded_and_selected_session
    as (st1 & y1 & y2 & H1 & _ & _ & Hr & _ & _ & Hw & Hz & Hs).
  destruct (five_samples_frequencies "hanning") as (z1 & z2 & H).
  destruct (set_lim_finite [Fin (1 / 2); Fin (1 / 4)]) as [xlim Hl];
    [repeat constructor|].
  exists st1. eexists. split; [exact H1|].
  rewrite press_open.
  rewrite (update_plot_rescaled false _ Scenario.five_times Scenario.five_values
             [Fin (1 / 2); Fin (1 / 4)] [z1; z2] xlim);
    [| cbn [data fft_range window_button zeropad_button set_file
            Scenario.loaded chosen_data];
       rewrite Hr, Hw, Hz; exact H
     | cbn [rescale_button set_file]; rewrite Hs; reflexivity
     | exact Hl].
  cbn [bind]. split; [reflexivity|].
  cbn [fft_range set_file spec_data set_ax1_limits set_ax0_limits set_spectrum combine].
  rewrite Hr.
  split; [reflexivity|].
  split; [|discriminate].
  intros E. injection E as E _. lra.
Qed.

(** Opening the scenario's file while the span (-1, 5) is drawn. *)
Lemma load_selection_range_witness :
  exists st',
    press Scenario.render_range "ctrl+o" Scenario.loaded Scenario.selected_session
    = Ok (st', [])
    /\ fft_range (state_after
                   (press Scenario.render_range "ctrl+o" Scenario.loaded
                      Scenario.selected_session))
       = (-1, 5)
    /\ List.length
         (spec_data (state_after
                       (press Scenario.render_range "ctrl+o" Scenario.loaded
                          Scenario.selected_session)))
       = 2%nat.
Proof.
  destruct (five_samples_frequencies "hanning") as (y1 & y2 & H).
  destruct (load_selection_range Scenario.render_range Scenario.loaded)
    as (_ & Hframe & _ & Hok).
  destruct (Hok Scenario.selected_session Scenario.five_times Scenario.five_values
              [Fin (1 / 2); Fin (1 / 4)] [y1; y2] H)
    as (Hs & Hret & _).
  assert (Hfin : Forall finite [Fin (1 / 2); Fin (1 / 4)]) by (repeat constructor).
  destruct (Hret (or_intror Hfin)) as [st' Hp].
  exists st'. split; [exact Hp|].
  split; [apply Hframe|].
  rewrite Hs. reflexivity.
Defined.

End Controller.

(** ** Axis limits *)

Module Limits.
Import Numpy TSTS Readings.

Lemma fold_left_Rmin_below (l : list R) (a y : R) :
  y = a \/ In y l -> fold_left Rmin l a <= y.
Proof.
  revert a; induction l as [|x l IH]; intros a [H | H]; simpl.
  - subst; lra.
  - contradiction.
  - subst y. eapply Rle_trans; [apply FrequencyAxis.fold_left_Rmin_le | apply Rmin_l].
  - destruct H as [-> | H].
    + eapply Rle_trans; [apply FrequencyAxis.fold_left_Rmin_le | apply Rmin_r].
    + apply IH. right; exact H.
Qed.

Lemma fold_left_Rmax_above (l : list R) (a y : R) :
  y = a \/ In y l -> y <= fold_left Rmax l a.
Proof.
  revert a; induction l as [|x l IH]; intros a [H | H]; simpl.
  - subst; lra.
  - contradiction.
  - subst y. eapply Rle_trans; [apply Rmax_l | apply FrequencyAxis.fold_left_Rmax_ge].
  - destruct H as [-> | H].
    + eapply Rle_trans; [apply Rmax_r | apply FrequencyAxis.fold_left_Rmax_ge].
    + apply IH. right; exact H.
Qed.

Lemma fold_left_Rmin_attained (l : list R) (a : R) :
  fold_left Rmin l a = a \/ In (fold_left Rmin l a) l.
Proof.
  revert a; induction l as [|x l IH]; intros a; simpl; [left; reflexivity|].
  destruct (IH (Rmin a x)) as [H | H]; [|right; right; exact H].
  rewrite H. unfold Rmin. destruct (Rle_dec a x); [left | right; left]; reflexivity.
Qed.

Lemma fold_left_Rmax_attained (l : list R) (a : R) :
  fold_left Rmax l a = a \/ In (fold_left Rmax l a) l.
Proof.
  revert a; induction l as [|x l IH]; intros a; simpl; [left; reflexivity|].
  destruct (IH (Rmax a x)) as [H | H]; [|right; right; exact H].
  rewrite H. unfold Rmax. destruct (Rle_dec a x); [right; left | left]; reflexivity.
Qed.

Lemma amin_below (ys : list R) (y : R) : In y ys -> amin ys <= y.
Proof.
  destruct ys as [|x t]; [contradiction|]. intros [<- | H]; simpl;
    apply fold_left_Rmin_below; [left; reflexivity | right; exact H].
Qed.

Lemma amax_above (ys : list R) (y : R) : In y ys -> y <= amax ys.
Proof.
  destruct ys as [|x t]; [contradiction|]. intros [<- | H]; simpl;
    apply fold_left_Rmax_above; [left; reflexivity | right; exact H].
Qed.

Lemma amin_attained (ys : list R) : ys <> [] -> In (amin ys) ys.
Proof.
  destruct ys as [|x t]; [contradiction|]. intros _. simpl.
  destruct (fold_left_Rmin_attained t x) as [-> | H]; [left; reflexivity | right; exact H].
Qed.

Lemma amax_attained (ys : list R) : ys <> [] -> In (amax ys) ys.
Proof.
  destruct ys as [|x t]; [contradiction|]. intros _. simpl.
  destruct (fold_left_Rmax_attained t x) as [-> | H]; [left; reflexivity | right; exact H].
Qed.

(** X1.  For a non-empty array and a margin that is not negative, the
    limits of [calc_range] enclose every value of the array; the interval
    is the spread of the values widened by the margin on each side, and
    with margin 0 its two ends are values of the array.  The empty array
    gets the limits (0, 1). *)
Theorem calc_range_encloses (ys : list R) (margin : R) :
  ys <> [] -> 0 <= margin ->
  fst (calc_range ys margin) <= snd (calc_range ys margin)
  /\ (forall y, In y ys ->
        fst (calc_range ys margin) <= y <= snd (calc_range ys margin))
  /\ snd (calc_range ys margin) - fst (calc_range ys margin)
     = (1 + 2 * margin) * (amax ys - amin ys)
  /\ (In (fst (calc_range ys 0)) ys /\ In (snd (calc_range ys 0)) ys)
  /\ calc_range [] margin = (0, 1).
Proof.
  intros Hne Hm.
  assert (Hr : calc_range ys margin
               = (amin ys - margin * (amax ys - amin ys),
                  amax ys + margin * (amax ys - amin ys)))
    by (destruct ys; [contradiction | reflexivity]).
  assert (Hr0 : calc_range ys 0 = (amin ys - 0 * (amax ys - amin ys),
                                   amax ys + 0 * (amax ys - amin ys)))
    by (destruct ys; [contradiction | reflexivity]).
  rewrite Hr, Hr0. cbn [fst snd].
  pose proof (amin_attained ys Hne) as Hmin.
  pose proof (amax_attained ys Hne) as Hmax.
  assert (Hspread : amin ys <= amax ys) by (apply amin_below; exact Hmax).
  split; [nra|].
  split.
  { intros y Hy. pose proof (amin_below ys y Hy). pose proof (amax_above ys y Hy). nra. }
  split; [ring|].
  split; [|reflexivity].
  replace (amin ys - 0 * (amax ys - amin ys)) with (amin ys) by ring.
  replace (amax ys + 0 * (amax ys - amin ys)) with (amax ys) by ring.
  split; assumption.
Qed.

Lemma calc_range_encloses_witness :
  fst (calc_range Scenario.five_values (1 / 10)) <= 1
  <= snd (calc_range Scenario.five_values (1 / 10)).
Proof.
  apply (proj1 (proj2 (calc_range_encloses Scenario.five_values (1 / 10)
                         ltac:(discriminate) ltac:(lra)))).
  right; left; reflexivity.
Defined.

End Limits.

(** ** More on zero padding *)

Module Padding.
Import Numpy TSTS Readings ZeroPadding.

Lemma num_add_lt (n : nat) : (1 <= n)%nat -> (num_add n < n)%nat.
Proof.
  intros Hn.
  destruct (Nat.eq_dec n 1) as [-> | Hne]; [simpl; lia|].
  pose proof (num_add_total n Hn) as Ht.
  pose proof (Nat.log2_up_spec n ltac:(lia)) as [Hlo _].
  assert (Hpos : (0 < Nat.log2_up n)%nat) by (apply Nat.log2_up_pos; lia).
  replace (Nat.log2_up n) with (S (Nat.pred (Nat.log2_up n))) in Ht by lia.
  rewrite Nat.pow_succ_r' in Ht. lia.
Qed.

(** X2.  For N >= 1 samples the pad count is below N: the padded length
    is a power of two that is at least N and less than 2N. *)
Theorem num_add_less_than_length (n : nat) :
  (1 <= n)%nat ->
  (num_add n < n)%nat /\ (n <= n + num_add n < 2 * n)%nat
  /\ exists k, (n + num_add n = 2 ^ k)%nat.
Proof.
  intros Hn.
  pose proof (num_add_lt n Hn) as Hlt.
  split; [exact Hlt|]. split; [lia|].
  exists (Nat.log2_up n). apply num_add_total; exact Hn.
Qed.

Lemma num_add_less_than_length_witness : (num_add 5 < 5)%nat.
Proof. apply (num_add_less_than_length 5). lia. Defined.

(** X3.  Padding what [zeropadding] returned changes nothing: the
    function is idempotent on its results. *)
Theorem zeropadding_idempotent (xs ys xs' ys' : list R) :
  zeropadding xs ys = Ok (xs', ys') ->
  zeropadding xs' ys' = Ok (xs', ys').
Proof.
  intros H.
  assert (Hne0 : xs <> []) by (intros ->; discriminate H).
  assert (Hn : (1 <= List.length xs)%nat)
    by (destruct xs; [contradiction | simpl; lia]).
  rewrite zeropadding_nonempty in H by exact Hne0.
  injection H as Hx Hy.
  assert (Hlen : List.length xs' = (2 ^ Nat.log2_up (List.length xs))%nat).
  { rewrite <- Hx, length_app, length_rev, linspace_length.
    apply num_add_total. exact Hn. }
  assert (Hne : xs' <> []).
  { rewrite <- Hx. intros E. apply app_eq_nil in E. destruct E; contradiction. }
  rewrite zeropadding_nonempty by exact Hne.
  rewrite Hlen, num_add_power. simpl. rewrite !app_nil_r. reflexivity.
Qed.

Lemma zeropadding_idempotent_witness :
  exists xs' ys',
    zeropadding Scenario.five_times Scenario.five_values = Ok (xs', ys')
    /\ zeropadding xs' ys' = Ok (xs', ys').
Proof.
  eexists _, _. split.
  - apply zeropadding_nonempty. discriminate.
  - apply (zeropadding_idempotent Scenario.five_times Scenario.five_values).
    apply zeropadding_nonempty. discriminate.
Defined.







End Padding.

(** ** The bins behind the spectrum *)

Module Bins.
Import Numpy TSTS Readings FrequencyAxis.

Lemma half_split (n : nat) : (1 <= n)%nat -> ((n - 1) / 2 + 1 = n - n / 2)%nat.
Proof.
  intros Hn.
  pose proof (Nat.div_mod_eq n 2). pose proof (Nat.div_mod_eq (n - 1) 2).
  pose proof (Nat.mod_upper_bound n 2). pose proof (Nat.mod_upper_bound (n - 1) 2).
  lia.
Qed.

(** With a negative [val] the mask is false on the first bins and true
    on the last [n/2]. *)
Lemma mask_negative_spacing (n : nat) (r : R) :
  r < 0 -> (1 <= n)%nat ->
  map xgreater0 (map (fun k => xscale k (Fin r)) (fftfreq_bins n))
  = repeat false (n - n / 2) ++ repeat true (n / 2).
Proof.
  intros Hr Hn. unfold fftfreq_bins.
  rewrite !map_app, !map_map.
  rewrite (map_const_repeat _ false), (map_const_repeat _ true).
  - rewrite !length_seq, half_split by exact Hn. reflexivity.
  - intros i Hi. apply in_seq in Hi. cbn [xscale xgreater0]. apply Rltb_true.
    assert (IZR (Z.of_nat i - Z.of_nat (n / 2)) <= -1) by (apply IZR_le; lia).
    nra.
  - intros i Hi. cbn [xscale xgreater0]. apply Rltb_false.
    assert (0 <= IZR (Z.of_nat i)) by (apply IZR_le; lia).
    nra.
Qed.

Lemma compress_all_true {A : Type} (b : nat) (l : list A) :
  List.length l = b -> compress (repeat true b) l = l.
Proof.
  revert l; induction b as [|b IH]; intros [|x l] H; simpl in *;
    try reflexivity; try discriminate.
  rewrite IH by lia. reflexivity.
Qed.

Lemma compress_tail {A : Type} (a b : nat) (l : list A) :
  List.length l = (a + b)%nat ->
  compress (repeat false a ++ repeat true b) l = skipn a l.
Proof.
  revert l; induction a as [|a IH]; intros l H.
  - apply compress_all_true. exact H.
  - destruct l as [|x l]; simpl in H; [lia|].
    simpl. apply IH. lia.
Qed.

Lemma skipn_by_index (a : nat) (l : list R) :
  skipn a l = map (fun i => nth (a + i) l 0) (seq 0 (List.length l - a)).
Proof.
  apply (nth_ext _ _ 0 0).
  - rewrite length_skipn, length_map, length_seq. reflexivity.
  - intros i Hi. rewrite length_skipn in Hi.
    rewrite nth_skipn.
    rewrite (ZeroPadding.nth_map_seq (fun i => nth (a + i) l 0)) by exact Hi.
    reflexivity.
Qed.

(** Bin [n - j] of a real signal is the complex conjugate of bin [j]. *)
Lemma dft_sum_mirror (n j m : nat) (a : list R) :
  (1 <= n)%nat -> (j <= n)%nat ->
  fst (dft_sum n (n - j) m a) = fst (dft_sum n j m a)
  /\ snd (dft_sum n (n - j) m a) = - snd (dft_sum n j m a).
Proof.
  intros Hn Hj. revert m; induction a as [|x a IH]; intros m.
  - simpl. split; ring.
  - destruct (IH (S m)) as [IHre IHim].
    assert (Hn0 : INR n <> 0) by (apply not_0_INR; lia).
    assert (Hangle : 2 * PI * INR m * INR (n - j) / INR n
                     = - (2 * PI * INR m * INR j / INR n) + 2 * INR m * PI).
    { rewrite minus_INR by exact Hj. field. exact Hn0. }
    cbn [dft_sum cadd twiddle fst snd].
    rewrite IHre, IHim, Hangle, cos_period, sin_period, cos_neg, sin_neg.
    split; ring.
Qed.

Lemma modulus_nth (a : list R) (k : nat) :
  (k < List.length a)%nat ->
  nth k (absolute (fft a)) 0
  = sqrt (fst (dft_sum (List.length a) k 0 a) * fst (dft_sum (List.length a) k 0 a)
          + snd (dft_sum (List.length a) k 0 a) * snd (dft_sum (List.length a) k 0 a)).
Proof.
  intros Hk. unfold absolute, fft. rewrite map_map.
  rewrite (ZeroPadding.nth_map_seq _ (List.length a) k 0 Hk). reflexivity.
Qed.

Lemma absolute_length (l : list complex) : List.length (absolute l) = List.length l.
Proof. apply length_map. Qed.

Lemma modulus_mirror (a : list R) (j : nat) :
  (0 < j)%nat -> (j < List.length a)%nat ->
  nth (List.length a - j) (absolute (fft a)) 0 = nth j (absolute (fft a)) 0.
Proof.
  intros Hj0 Hj.
  rewrite !modulus_nth by lia.
  destruct (dft_sum_mirror (List.length a) j 0 a ltac:(lia) ltac:(lia)) as [-> ->].
  f_equal. ring.
Qed.

Lemma bin_frequency (m i : nat) (lo hi : R) :
  lo < hi -> (i < m)%nat ->
  IZR (Z.of_nat i - Z.of_nat m) * (1 / (lo - hi)) = INR (m - i) / (hi - lo).
Proof.
  intros Hspan Hi.
  rewrite minus_IZR, <- !INR_IZR_INZ, minus_INR by lia.
  field. split; lra.
Qed.

(** X5.  For a selection that spans a positive time, with one value and
    one window weight per time: the spectrum has N/2 entries (N the
    number of transformed samples); entry i has the frequency
    (N/2 - i) / (max - min), so the entries run from (N/2)/(max - min)
    down to 1/(max - min); and its magnitude is the modulus of bin
    N/2 - i of the discrete Fourier transform of the windowed values. *)
Theorem spectrum_bins (xs ys window : list R) :
  py_min xs < py_max xs ->
  List.length ys = List.length xs ->
  List.length window = List.length xs ->
  spectrum xs ys window
  = (map (fun i => Fin (INR (List.length xs / 2 - i) / (py_max xs - py_min xs)))
       (seq 0 (List.length xs / 2)),
     map (fun i => nth (List.length xs / 2 - i) (absolute (fft (multiply ys window))) 0)
       (seq 0 (List.length xs / 2))).
Proof.
  intros Hspan Hy Hw.
  assert (Hne : xs <> []) by (intros ->; simpl in Hspan; lra).
  assert (Hn : (1 <= List.length xs)%nat)
    by (destruct xs; [contradiction | simpl; lia]).
  assert (Hhalf : (List.length xs / 2 <= List.length xs)%nat)
    by (apply Nat.Div0.div_le_upper_bound; lia).
  rewrite (Engine.spectrum_pair xs ys window).
  f_equal.
  - rewrite spectrum_frequencies by exact Hspan.
    apply map_ext_in. intros i Hi. apply in_seq in Hi.
    f_equal. apply bin_frequency; [exact Hspan | lia].
  - assert (Hlen : List.length (multiply ys window) = List.length xs)
      by (rewrite multiply_length; congruence).
    unfold spectrum.
    destruct (List.length xs) as [|n'] eqn:En; [lia|]. rewrite <- En in *.
    cbn [snd]. unfold fftfreq.
    rewrite spacing_times_length by exact Hn.
    rewrite xrecip_nonzero by lra.
    rewrite mask_negative_spacing
      by (try exact Hn; apply negative_reciprocal; exact Hspan).
    rewrite compress_tail by (rewrite fft_length, Hlen; lia).
    unfold absolute at 1. rewrite <- skipn_map. fold (absolute (fft (multiply ys window))).
    rewrite skipn_by_index.
    rewrite absolute_length, fft_length, Hlen.
    replace (List.length xs - (List.length xs - List.length xs / 2))%nat
      with (List.length xs / 2)%nat by lia.
    apply map_ext_in. intros i Hi. apply in_seq in Hi.
    replace (List.length xs - List.length xs / 2 + i)%nat
      with (List.length (multiply ys window) - (List.length xs / 2 - i))%nat
      by (rewrite Hlen; lia).
    apply modulus_mirror; [lia|].
    rewrite Hlen.
    pose proof (Nat.div_mod_eq (List.length xs) 2). lia.
Qed.

Lemma spectrum_bins_witness :
  fst (spectrum Scenario.five_times Scenario.five_values (ones 5))
  = map (fun i => Fin (INR (2 - i)
                       / (py_max Scenario.five_times - py_min Scenario.five_times)))
      [0%nat; 1%nat].
Proof.
  rewrite (spectrum_bins Scenario.five_times Scenario.five_values (ones 5));
    [reflexivity | | reflexivity | reflexivity].
  rewrite Engine.five_times_min, Engine.five_times_max. lra.
Defined.

End Bins.

(** ** What the engine hands back *)

Module Outputs.
Import Numpy TSTS Readings RangeFilter ZeroPadding FrequencyAxis Engine.

Lemma columns_same_length (d : dataset) :
  List.length (column0 d) = List.length d /\ List.length (column1 d) = List.length d.
Proof. unfold column0, column1. rewrite !length_map. split; reflexivity. Qed.

Lemma selected_length (lo hi : R) (d : dataset) :
  (List.length (selected lo hi d) <= List.length d)%nat.
Proof. apply filter_length_le. Qed.

Lemma spectrum_nonneg (xs ys window : list R) :
  Forall (fun m => 0 <= m) (snd (spectrum xs ys window)).
Proof.
  unfold spectrum. destruct (List.length xs); [constructor|].
  cbn [snd]. unfold absolute. apply Forall_forall. intros m Hm.
  apply in_map_iff in Hm. destruct Hm as (z & <- & _). apply sqrt_pos.
Qed.

(** At most every second transformed sample gives a frequency. *)
Lemma spectrum_count (xs ys window : list R) :
  (List.length (fst (spectrum xs ys window)) <= List.length xs / 2)%nat.
Proof.
  destruct xs as [|x t] eqn:E; [simpl; lia|]. rewrite <- E.
  assert (Hne : xs <> []) by (rewrite E; discriminate).
  destruct (Rle_lt_or_eq_dec _ _ (py_min_le_max xs)) as [Hspan | Hspan].
  - rewrite spectrum_frequencies by exact Hspan.
    rewrite length_map, length_seq. lia.
  - rewrite spectrum_frequencies_no_span by assumption.
    rewrite repeat_length. apply Nat.Div0.div_le_mono. lia.
Qed.

Lemma spectrum_single (x y : R) (window : list R) :
  List.length window = 1%nat -> spectrum [x] [y] window = ([], []).
Proof.
  intros Hw.
  pose proof (spectrum_count [x] [y] window) as Hc.
  pose proof (spectrum_lengths [x] [y] window eq_refl Hw) as Hl.
  change (List.length [x] / 2)%nat with 0%nat in Hc.
  rewrite (spectrum_pair [x] [y] window).
  destruct (fst (spectrum [x] [y] window)); [|simpl in Hc; lia].
  destruct (snd (spectrum [x] [y] window)); [reflexivity | discriminate].
Qed.

(** X6.  A selection that keeps exactly one sample gives an empty
    spectrum and no error, with padding or without, whatever the
    window. *)
Theorem calc_fft_single_sample
    (data : dataset) (lo hi : R) (windowtype : string) (zeropad : bool) (s : R * R) :
  selected lo hi data = [s] ->
  calc_fft (Some data) (lo, hi) windowtype zeropad
  = Ok (column0 data, column1 data, [], []).
Proof.
  intros Hsel. destruct zeropad.
  - rewrite calc_fft_padded by (rewrite Hsel; discriminate).
    rewrite Hsel.
    change (column0 [s]) with [fst s]. change (column1 [s]) with [snd s].
    change (num_add (List.length [fst s])) with 0%nat.
    cbn [linspace seq map rev app repeat].
    rewrite spectrum_single by apply Windowing.calc_window_length.
    reflexivity.
  - rewrite calc_fft_unpadded, Hsel.
    change (column0 [s]) with [fst s]. change (column1 [s]) with [snd s].
    rewrite spectrum_single by apply Windowing.calc_window_length.
    reflexivity.
Qed.

Lemma calc_fft_single_sample_witness :
  calc_fft (Some Scenario.five_samples) (1 / 2, 3 / 2) "hanning" true
  = Ok (Scenario.five_times, Scenario.five_values, [], []).
Proof.
  apply (calc_fft_single_sample Scenario.five_samples (1 / 2) (3 / 2) "hanning" true (1, 1)).
  eval_selected. reflexivity.
Defined.

(** X7.  Whenever the engine returns for a dataset: the two time
    sequences have one entry per sample of the dataset; there is one
    magnitude per frequency and no magnitude is negative; and the
    spectrum has at most half as many entries as samples were
    transformed, which is never more than the selection kept. *)
Theorem calc_fft_output_shape
    (data : dataset) (lo hi : R) (windowtype : string) (zeropad : bool)
    (time_xs time_ys : list R) (spec_xs : list xreal) (spec_ys : list R) :
  calc_fft (Some data) (lo, hi) windowtype zeropad
  = Ok (time_xs, time_ys, spec_xs, spec_ys) ->
  List.length time_xs = List.length data
  /\ List.length time_ys = List.length data
  /\ List.length spec_ys = List.length spec_xs
  /\ Forall (fun m => 0 <= m) spec_ys
  /\ (List.length spec_xs <= List.length (fst (range_filter data (lo, hi))))%nat
  /\ (List.length spec_xs <= List.length data)%nat.
Proof.
  intros H.
  pose proof (columns_same_length data) as [Hc0 Hc1].
  pose proof (columns_same_length (selected lo hi data)) as [Hs0 Hs1].
  pose proof (selected_length lo hi data) as Hsl.
  rewrite range_filter_selected. cbn [fst].
  destruct zeropad.
  - destruct (selected lo hi data) as [|s sel] eqn:Hsel.
    { rewrite (calc_fft_padded_empty data lo hi windowtype Hsel) in H. discriminate. }
    rewrite <- Hsel in *.
    assert (Hne : column0 (selected lo hi data) <> [])
      by (apply column0_nonempty; rewrite Hsel; discriminate).
    rewrite (calc_fft_padded data lo hi windowtype Hne) in H.
    injection H as <- <- <- <-.
    set (n := num_add (List.length (column0 (selected lo hi data)))) in *.
    set (xs' := column0 (selected lo hi data) ++ _) in *.
    set (ys' := column1 (selected lo hi data) ++ _) in *.
    assert (Hx : List.length xs' = (List.length (selected lo hi data) + n)%nat)
      by (unfold xs'; rewrite length_app, length_rev, linspace_length, Hs0; reflexivity).
    assert (Hy : List.length ys' = (List.length (selected lo hi data) + n)%nat)
      by (unfold ys'; rewrite length_app, repeat_length, Hs1; reflexivity).
    assert (Hn : (n < List.length (selected lo hi data))%nat).
    { unfold n. rewrite Hs0. apply Padding.num_add_lt.
      rewrite Hsel. simpl. lia. }
    pose proof (spectrum_count xs' ys' (calc_window windowtype ys')) as Hc.
    assert (Hhalf : (List.length xs' / 2 <= List.length (selected lo hi data))%nat).
    { rewrite Hx. apply Nat.Div0.div_le_upper_bound. lia. }
    repeat split; try assumption; try lia.
    + apply spectrum_lengths; [congruence | apply Windowing.calc_window_length].
    + apply spectrum_nonneg.
  - rewrite calc_fft_unpadded in H. injection H as <- <- <- <-.
    pose proof (spectrum_count (column0 (selected lo hi data))
                  (column1 (selected lo hi data))
                  (calc_window windowtype (column1 (selected lo hi data)))) as Hc.
    assert (Hhalf : (List.length (column0 (selected lo hi data)) / 2
                     <= List.length (selected lo hi data))%nat).
    { rewrite Hs0. apply Nat.Div0.div_le_upper_bound. lia. }
    repeat split; try assumption; try lia.
    + apply spectrum_lengths; [congruence | apply Windowing.calc_window_length].
    + apply spectrum_nonneg.
Qed.

Lemma calc_fft_output_shape_witness :
  exists y1 y2,
    calc_fft (Some Scenario.five_samples) (-1, 5) "bartlett" false
    = Ok (Scenario.five_times, Scenario.five_values,
          [Fin (1 / 2); Fin (1 / 4)], [y1; y2])
    /\ Forall (fun m => 0 <= m) [y1; y2].
Proof.
  destruct (five_samples_frequencies "bartlett") as (y1 & y2 & H).
  exists y1, y2. split; [exact H|].
  apply (calc_fft_output_shape _ _ _ _ _ _ _ _ _ H).
Defined.

Lemma combine_columns (d : dataset) : combine (column0 d) (column1 d) = d.
Proof.
  unfold column0, column1.
  induction d as [|[t a] d IH]; simpl; [reflexivity|].
  rewrite IH. reflexivity.
Qed.

Lemma strictly_inside_both (lo1 hi1 lo2 hi2 : R) (s : R * R) :
  strictly_inside (Rmax lo1 lo2) (Rmin hi1 hi2) s
  = (strictly_inside lo1 hi1 s && strictly_inside lo2 hi2 s)%bool.
Proof.
  apply Bool.eq_true_iff_eq.
  rewrite Bool.andb_true_iff, !strictly_inside_iff.
  unfold Rmax, Rmin.
  destruct (Rle_dec lo1 lo2), (Rle_dec hi1 hi2); lra.
Qed.

(** X8.  Filtering the filtered series by a second range gives what one
    filtering by the intersection of the two ranges gives. *)
Theorem range_filter_nested (data : dataset) (lo1 hi1 lo2 hi2 : R) :
  range_filter
    (combine (fst (range_filter data (lo1, hi1))) (snd (range_filter data (lo1, hi1))))
    (lo2, hi2)
  = range_filter data (Rmax lo1 lo2, Rmin hi1 hi2).
Proof.
  rewrite !range_filter_selected. cbn [fst snd].
  rewrite combine_columns.
  assert (Hsel : selected lo2 hi2 (selected lo1 hi1 data)
                 = selected (Rmax lo1 lo2) (Rmin hi1 hi2) data).
  { unfold selected. induction data as [|s data IH]; simpl; [reflexivity|].
    rewrite strictly_inside_both.
    destruct (strictly_inside lo1 hi1 s); simpl; [|exact IH].
    destruct (strictly_inside lo2 hi2 s); rewrite IH; reflexivity. }
  rewrite Hsel. reflexivity.
Qed.

End Outputs.

(** ** What the window does to the signal *)

Module Tapering.
Import Numpy TSTS Windowing.

Lemma hanning_bounded (M : nat) : Forall (fun w => 0 <= w <= 1) (hanning M).
Proof.
  apply taper_Forall; [lra|]. intros n _ _.
  pose proof (COS_bound (PI * IZR n / (INR M - 1))). lra.
Qed.

Lemma hamming_bounded (M : nat) : Forall (fun w => 0 <= w <= 1) (hamming M).
Proof.
  apply taper_Forall; [lra|]. intros n _ _.
  pose proof (COS_bound (PI * IZR n / (INR M - 1))). lra.
Qed.

Lemma bartlett_bounded (M : nat) : Forall (fun w => 0 <= w <= 1) (bartlett M).
Proof.
  apply taper_Forall; [lra|]. intros n HM [Hlo Hhi].
  assert (HM1 : INR M - 1 = IZR (Z.of_nat M - 1))
    by (rewrite minus_IZR, <- INR_IZR_INZ; reflexivity).
  assert (Hpos : 0 < INR M - 1) by (rewrite HM1; apply IZR_lt; lia).
  assert (Hlo' : - (INR M - 1) <= IZR n)
    by (rewrite HM1, <- opp_IZR; apply IZR_le; lia).
  assert (Hhi' : IZR n <= INR M - 1) by (rewrite HM1; apply IZR_le; lia).
  set (m := INR M - 1) in *.
  assert (Hq : IZR n / m * m = IZR n) by (field; lra).
  set (q := IZR n / m) in *.
  destruct (Rle_dec (IZR n) 0); nra.
Qed.

Lemma widen_bounds (l : list R) :
  Forall (fun w => 0 <= w <= 1) l -> Forall (fun w => - / 2 ^ 56 <= w <= 1) l.
Proof.
  apply Forall_impl. intros w Hw. pose proof blackman_end_negative. lra.
Qed.

Lemma calc_window_bounded (windowtype : string) (ys : list R) :
  Forall (fun w => - / 2 ^ 56 <= w <= 1) (calc_window windowtype ys).
Proof.
  unfold calc_window.
  pose proof (lookup_functions windowtype) as H.
  destruct (lookup windowtype functions) as [f|].
  - destruct H as [-> | [-> | [-> | ->]]];
      [apply widen_bounds, hanning_bounded | apply blackman_bounds
       | apply widen_bounds, hamming_bounded | apply widen_bounds, bartlett_bounded].
  - unfold ones. apply Forall_forall. intros w Hw.
    apply repeat_spec in Hw. subst w. pose proof blackman_end_negative. lra.
Qed.

Lemma multiply_nth (a b : list R) (i : nat) :
  List.length a = List.length b ->
  nth i (multiply a b) 0 = nth i a 0 * nth i b 0.
Proof.
  revert b i; induction a as [|x a IH]; intros [|y b] i H; simpl in H;
    try discriminate.
  - destruct i; simpl; ring.
  - destruct i as [|i]; simpl; [reflexivity|]. apply IH. lia.
Qed.

(** X9.  Every weight that [calc_window] returns lies between -2^-56 and
    1, so the windowed signal [ys * window] is nowhere larger in absolute
    value than the signal; for "boxcar" it is the signal itself. *)
Theorem calc_window_never_amplifies (windowtype : string) (ys : list R) :
  Forall (fun w => - / 2 ^ 56 <= w <= 1) (calc_window windowtype ys)
  /\ Forall (fun w => Rabs w <= 1) (calc_window windowtype ys)
  /\ (forall i, Rabs (nth i (multiply ys (calc_window windowtype ys)) 0)
               <= Rabs (nth i ys 0))
  /\ multiply ys (calc_window "boxcar" ys) = ys.
Proof.
  pose proof (calc_window_bounded windowtype ys) as Hb.
  pose proof blackman_end_small as Hsmall.
  assert (Habs : Forall (fun w => Rabs w <= 1) (calc_window windowtype ys)).
  { revert Hb. apply Forall_impl. intros w Hw. apply Rabs_le. lra. }
  split; [exact Hb|]. split; [exact Habs|]. split.
  - intros i.
    rewrite multiply_nth by (symmetry; apply calc_window_length).
    assert (Hw : Rabs (nth i (calc_window windowtype ys) 0) <= 1).
    { destruct (nth_in_or_default i (calc_window windowtype ys) 0) as [Hin | ->].
      - rewrite Forall_forall in Habs. apply Habs; exact Hin.
      - rewrite Rabs_R0. lra. }
    rewrite Rabs_mult.
    pose proof (Rabs_pos (nth i ys 0)).
    pose proof (Rabs_pos (nth i (calc_window windowtype ys) 0)). nra.
  - change (calc_window "boxcar" ys) with (ones (List.length ys)).
    clear. induction ys as [|y ys IH]; simpl; [reflexivity|].
    unfold ones in IH. rewrite IH. f_equal. ring.
Qed.

End Tapering.

(** ** The handlers *)

Module Handlers.
Import Numpy TSTS Readings RangeFilter Engine AxisLimits Controller.




(** Close the three parts of a statement about the effects of one key. *)
Ltac settle_effects :=
  repeat split; intros;
  try contradiction;
  repeat match goal with
    | H : In _ _ |- _ =>
        simpl in H; destruct H as [H | H]; try discriminate H; try contradiction
    end;
  try reflexivity.

Section Keys.

Variable format_range : R * R -> string.

Lemma press_reset (d : dialog) (st : session) :
  press format_range "ctrl+r" d st
  = bind (onselect 0 0 (set_span_visible false st)) (fun st1 =>
    bind (update_plot true st1) (fun st2 => Ok (st2, []))).
Proof. reflexivity. Qed.

Lemma press_save_figure (d : dialog) (st : session) :
  press format_range "ctrl+s" d st
  = match figure_error d with
    | Some e => Raise (e, set_filename (chosen_name d) st)
    | None => Ok (set_filename (chosen_name d) st, [Savefig (chosen_name d)])
    end.
Proof. reflexivity. Qed.

(** X11.  The reset key.  With padding off it returns a session whose
    range is (0, 0), whose spectrum is empty and whose span is hidden,
    the dataset, file name and settings being kept.  With padding on and
    a dataset loaded it raises an [IndexError], the range (0, 0) keeping
    no sample; the session it leaves has the range (0, 0) and the span
    hidden, and the spectrum that was stored before. *)
Theorem reset_key (d : dialog) (st : session) :
  (zeropad_button st = false ->
   exists st',
     press format_range "ctrl+r" d st = Ok (st', [])
     /\ fft_range st' = (0, 0) /\ spec_data st' = []
     /\ span_visible st' = false
     /\ data st' = data st /\ filename st' = filename st
     /\ window_button st' = window_button st
     /\ zeropad_button st' = false
     /\ rescale_button st' = rescale_button st)
  /\ (zeropad_button st = true -> data st <> None ->
      press format_range "ctrl+r" d st
      = Raise (IndexError, set_fft_range (0, 0) (set_span_visible false st))
      /\ fft_range (state_after (press format_range "ctrl+r" d st)) = (0, 0)
      /\ span_visible (state_after (press format_range "ctrl+r" d st)) = false
      /\ spec_data (state_after (press format_range "ctrl+r" d st)) = spec_data st).
Proof.
  split.
  - intros Hz.
    destruct (calc_fft_initial (data st) (window_button st)) as (xs & ys & H).
    set (st0 := set_fft_range (0, 0) (set_span_visible false st)).
    assert (H0 : calc_fft (data st0) (fft_range st0) (window_button st0)
                   (zeropad_button st0) = Ok (xs, ys, [], []))
      by (cbn; rewrite Hz; exact H).
    rewrite press_reset. unfold onselect. fold st0.
    destruct (update_plot_returns false st0 xs ys [] [] H0
                (or_intror (Forall_nil finite))) as [st1 H1].
    pose proof (update_plot_frame false st0) as F1.
    pose proof (update_plot_stores false st0 xs ys [] [] H0) as S1.
    rewrite H1 in F1, S1. cbv zeta in F1. cbn [session_after] in F1, S1.
    destruct F1 as (Fd & Ff & Fr & Fw & Fz & Fs & Fv & _).
    assert (H1' : calc_fft (data st1) (fft_range st1) (window_button st1)
                    (zeropad_button st1) = Ok (xs, ys, [], []))
      by (rewrite Fd, Fr, Fw, Fz; exact H0).
    destruct (update_plot_returns true st1 xs ys [] [] H1'
                (or_intror (Forall_nil finite))) as [st2 H2].
    pose proof (update_plot_frame true st1) as F2.
    pose proof (update_plot_stores true st1 xs ys [] [] H1') as S2.
    rewrite H2 in F2, S2. cbv zeta in F2. cbn [session_after] in F2, S2.
    destruct F2 as (Gd & Gf & Gr & Gw & Gz & Gs & Gv & _).
    exists st2. rewrite H1. cbn [bind]. rewrite H2. cbn [bind].
    split; [reflexivity|].
    rewrite Gr, Gd, Gf, Gw, Gz, Gs, Gv, Fr, Fd, Ff, Fw, Fz, Fs, Fv.
    destruct S2 as (-> & _). cbn. rewrite Hz. repeat split.
  - intros Hz Hd.
    assert (Hp : press format_range "ctrl+r" d st
                 = Raise (IndexError, set_fft_range (0, 0) (set_span_visible false st))).
    { rewrite press_reset. unfold onselect.
      rewrite (update_plot_engine_raises false _ IndexError); [reflexivity|].
      cbn [data fft_range window_button zeropad_button set_fft_range set_span_visible].
      rewrite Hz. destruct (data st) as [ds|]; [|contradiction].
      apply calc_fft_padded_empty. apply selected_empty_range. lra. }
    rewrite Hp. repeat split.
Qed.

(** X12.  The save-figure key makes the chosen figure name the file name
    of the session before the figure is written, and writes nothing else
    of the session: that is the session it returns when [plt.savefig]
    accepts the name, and the session it leaves when [plt.savefig]
    raises.  Either way the save key pressed next writes the spectrum to
    a path made from the figure name, with FFT put before its
    extension. *)
Theorem save_figure_renames_session (d d' : dialog) (st : session) :
  (figure_error d = None ->
   press format_range "ctrl+s" d st
   = Ok (set_filename (chosen_name d) st, [Savefig (chosen_name d)]))
  /\ (forall e, figure_error d = Some e ->
                press format_range "ctrl+s" d st
                = Raise (e, set_filename (chosen_name d) st))
  /\ state_after (press format_range "ctrl+s" d st) = set_filename (chosen_name d) st
  /\ set_filename (chosen_name d) st
     = mkSession (data st) (chosen_name d) (fft_range st) (spec_data st)
         (window_button st) (zeropad_button st) (rescale_button st)
         (span_visible st) (ax0_line st) (ax1_line st) (closed st)
         (ax0_xlim st) (ax0_ylim st) (ax1_xlim st) (ax1_ylim st)
  /\ exists st2 call,
       press format_range "enter" d' (state_after (press format_range "ctrl+s" d st))
       = Ok (st2, [Savetxt call])
       /\ path call
          = (fst (OsPath.splitext (chosen_name d)) ++ "FFT"
             ++ snd (OsPath.splitext (chosen_name d)))%string.
Proof.
  assert (Hafter : state_after (press format_range "ctrl+s" d st)
                   = set_filename (chosen_name d) st).
  { rewrite press_save_figure. destruct (figure_error d); reflexivity. }
  split; [intros H; rewrite press_save_figure, H; reflexivity|].
  split; [intros e H; rewrite press_save_figure, H; reflexivity|].
  split; [exact Hafter|].
  split; [reflexivity|].
  rewrite Hafter. eexists _, _. split; [apply press_enter|].
  rewrite save_data_path. reflexivity.
Qed.

(** X13.  Whatever key is pressed and whatever comes of it: a data file
    is written only by "enter" and a figure only by "ctrl+s"; a key that
    is none of "enter", "esc", "ctrl+r", "ctrl+s", "ctrl+o" leaves the
    session as it was and has no effect. *)
Theorem press_effects (key : string) (d : dialog) (st st' : session)
    (effects : list effect) :
  press format_range key d st = Ok (st', effects) ->
  (forall c, In (Savetxt c) effects -> key = "enter"%string)
  /\ (forall f, In (Savefig f) effects -> key = "ctrl+s"%string)
  /\ (key <> "enter"%string -> key <> "esc"%string -> key <> "ctrl+r"%string ->
      key <> "ctrl+s"%string -> key <> "ctrl+o"%string ->
      st' = st /\ effects = []).
Proof.
  unfold press.
  destruct (String.eqb_spec key "enter") as [-> | He].
  { destruct (save_data _ _ _ _ _ _) as [a' call]. intros H. injection H as <- <-.
    settle_effects. }
  destruct (String.eqb_spec key "esc") as [-> | Hq].
  { intros H. injection H as <- <-. settle_effects. }
  destruct (String.eqb_spec key "ctrl+r") as [-> | Hr].
  { intros H.
    destruct (onselect 0 0 (set_span_visible false st)) as [st1|e]; [|discriminate H].
    cbn [bind] in H.
    destruct (update_plot true st1) as [st2|e]; [|discriminate H].
    cbn [bind] in H. injection H as <- <-. settle_effects. }
  destruct (String.eqb_spec key "ctrl+s") as [-> | Hs].
  { intros H. destruct (figure_error d); [discriminate H|].
    injection H as <- <-. settle_effects. }
  destruct (String.eqb_spec key "ctrl+o") as [-> | Ho].
  { intros H.
    destruct (update_plot false (set_file d st)) as [st1|e]; [|discriminate H].
    cbn [bind] in H. injection H as <- <-. settle_effects. }
  intros H. injection H as <- <-. settle_effects.
Qed.

(** X14.  The save key always returns, and of the session it changes the
    stored spectrum only: the stored array becomes the rows written, with
    as many rows and the same magnitudes as before.  A recompute reads
    nothing of the stored array: after a save it returns or raises as it
    does without the save, and when the engine returns it leaves the
    very same session, so selecting a range after a save gives what
    selecting it without the save gives.  When the engine raises, the
    stored array stays as the save left it. *)
Theorem save_then_recompute (d : dialog) (st : session) (xmin xmax : R)
    (force : bool) :
  exists st1 call,
    press format_range "enter" d st = Ok (st1, [Savetxt call])
    /\ data st1 = data st /\ filename st1 = filename st
    /\ fft_range st1 = fft_range st
    /\ window_button st1 = window_button st
    /\ zeropad_button st1 = zeropad_button st
    /\ rescale_button st1 = rescale_button st
    /\ ax0_line st1 = ax0_line st /\ ax1_line st1 = ax1_line st
    /\ spec_data st1 = rows call
    /\ List.length (spec_data st1) = List.length (spec_data st)
    /\ map snd (spec_data st1) = map snd (spec_data st)
    /\ (forall st', onselect xmin xmax st = Ok st' <-> onselect xmin xmax st1 = Ok st')
    /\ (forall st', update_plot force st = Ok st' <-> update_plot force st1 = Ok st')
    /\ (forall e,
          calc_fft (data st) (fft_range st) (window_button st) (zeropad_button st)
          = Raise e ->
          update_plot force st = Raise (e, st)
          /\ update_plot force st1 = Raise (e, st1))
    /\ (forall xs ys spec_xs spec_ys,
          calc_fft (data st) (fft_range st) (window_button st) (zeropad_button st)
          = Ok (xs, ys, spec_xs, spec_ys) ->
          update_plot force st1 = update_plot force st).
Proof.
  assert (Hsame : forall f a s,
             calc_fft (data s) (fft_range s) (window_button s) (zeropad_button s)
             = calc_fft (data (set_spec_data a s)) (fft_range (set_spec_data a s))
                 (window_button (set_spec_data a s)) (zeropad_button (set_spec_data a s))
             /\ (forall st', update_plot f s = Ok st'
                            <-> update_plot f (set_spec_data a s) = Ok st')
             /\ (forall xs ys sx sy,
                   calc_fft (data s) (fft_range s) (window_button s) (zeropad_button s)
                   = Ok (xs, ys, sx, sy) ->
                   update_plot f (set_spec_data a s) = update_plot f s)).
  { intros f a s. split; [reflexivity|].
    unfold update_plot.
    cbn [data fft_range window_button zeropad_button rescale_button set_spec_data].
    destruct (calc_fft (data s) (fft_range s) (window_button s) (zeropad_button s))
      as [[[[xs ys] sx] sy] | e]; cbn [raise_in bind].
    - split; [|intros; reflexivity]. intros st'. reflexivity.
    - split; [|intros ? ? ? ? E; discriminate E].
      intros st'. split; intros E; discriminate E. }
  eexists _, _. split; [apply press_enter|].
  rewrite (proj1 (save_data_array _ _ _ _ _ _)).
  rewrite (proj2 (save_data_array _ _ _ _ _ _)).
  cbn [set_spec_data data filename fft_range window_button zeropad_button
       rescale_button ax0_line ax1_line spec_data].
  do 9 (split; [reflexivity|]).
  split; [unfold scale_column0; apply length_map|].
  split; [unfold scale_column0; rewrite map_map; reflexivity|].
  split.
  { intros st'. unfold onselect.
    apply (Hsame false (scale_column0 (spec_data st)) (set_fft_range (xmin, xmax) st)). }
  split; [apply Hsame|].
  split.
  { intros e H. split; apply update_plot_engine_raises; exact H. }
  apply Hsame.
Qed.

End Keys.

(** From the session of the scenario, with the padding box ticked or not. *)
Lemma reset_key_witness :
  (exists st',
      press Scenario.render_range "ctrl+r" Scenario.loaded Scenario.selected_session
      = Ok (st', []) /\ fft_range st' = (0, 0) /\ spec_data st' = [])
  /\ press Scenario.render_range "ctrl+r" Scenario.loaded
       (set_zeropad_button true Scenario.selected_session)
     = Raise (IndexError,
              set_fft_range (0, 0)
                (set_span_visible false
                   (set_zeropad_button true Scenario.selected_session))).
Proof.
  split.
  - destruct (proj1 (reset_key Scenario.render_range Scenario.loaded
                       Scenario.selected_session) eq_refl)
      as (st' & Hp & Hr & Hs & _).
    exists st'. repeat split; assumption.
  - apply (proj2 (reset_key Scenario.render_range Scenario.loaded
                    (set_zeropad_button true Scenario.selected_session))).
    + reflexivity.
    + discriminate.
Defined.

Lemma press_effects_witness :
  Scenario.selected_session = Scenario.selected_session /\ @nil effect = [].
Proof.
  apply (press_effects Scenario.render_range "ctrl+x" Scenario.loaded
           Scenario.selected_session Scenario.selected_session [] eq_refl);
    discriminate.
Defined.

(** Saving the figure under a name that [plt.savefig] refuses. *)
Lemma save_figure_renames_session_witness :
  press Scenario.render_range "ctrl+s" (mkDialog None "plot.xyz" (Some ValueError))
    Scenario.selected_session
  = Raise (ValueError, set_filename "plot.xyz" Scenario.selected_session).
Proof.
  apply (save_figure_renames_session Scenario.render_range
           (mkDialog None "plot.xyz" (Some ValueError)) Scenario.loaded
           Scenario.selected_session).
  reflexivity.
Defined.

End Handlers.

(** ** The shape of an extension *)

Module Extensions.
Import OsPath Readings Paths.
Open Scope string_scope.

Lemma rfind_none (c : ascii) (p : string) (j : nat) :
  rfind c p = None -> String.get j p <> Some c.
Proof.
  revert j; induction p as [|a p IH]; intros j H; [destruct j; discriminate|].
  simpl in H. destruct (rfind c p) as [k|]; [discriminate|].
  destruct (Ascii.eqb_spec a c) as [->|Hne]; [discriminate|].
  destruct j as [|j]; simpl.
  - intros E; injection E as ->; contradiction.
  - apply IH; reflexivity.
Qed.

(** A character of the extension, past its dot, is a character of the
    path behind the last dot. *)
Lemma extension_char (p : string) (d i : nat) (c : ascii) (rest : string) :
  substring d (String.length p - d) p = String extsep rest ->
  String.get i rest = Some c ->
  String.get (S i + d) p = Some c.
Proof.
  intros Hsub Hget.
  assert (Hg : String.get (S i) (substring d (String.length p - d) p) = Some c)
    by (rewrite Hsub; exact Hget).
  destruct (le_lt_dec (String.length p - d) (S i)) as [Hout | Hin].
  - rewrite substring_correct2 in Hg by exact Hout. discriminate.
  - rewrite substring_correct1 in Hg by exact Hin. exact Hg.
Qed.

Lemma splitext_extension_shape (p : string) :
  snd (splitext p) = ""
  \/ exists rest,
       snd (splitext p) = String extsep rest
       /\ ~ has_char extsep rest /\ ~ has_char sep rest.
Proof.
  unfold splitext.
  destruct (rfind extsep p) as [d|] eqn:Hd; [|left; reflexivity].
  destruct (_ <=? d)%nat eqn:Hle; [|left; reflexivity].
  destruct (has_non_dot _ _ _); [|left; reflexivity].
  right. cbn [andb fst snd].
  apply Nat.leb_le in Hle.
  pose proof (rfind_get _ _ _ Hd) as [Hgd Hld].
  destruct (substring_from p d extsep Hgd) as [rest Hrest].
  exists rest. split; [exact Hrest|]. split.
  - intros [i Hi].
    pose proof (extension_char p d i extsep rest Hrest Hi) as Hp.
    revert Hp. apply (rfind_last extsep p d); [exact Hd | lia].
  - intros [i Hi].
    pose proof (extension_char p d i sep rest Hrest Hi) as Hp.
    revert Hp.
    destruct (rfind sep p) as [k|] eqn:Hk.
    + apply (rfind_last sep p k); [exact Hk | lia].
    + apply rfind_none; exact Hk.
Qed.

Lemma splitext_no_dot (p : string) : ~ has_char extsep p -> splitext p = (p, "").
Proof.
  intros Hno. unfold splitext.
  destruct (rfind extsep p) as [d|] eqn:Hd; [|reflexivity].
  exfalso. apply Hno. exists d. apply (rfind_get _ _ _ Hd).
Qed.

(** X15.  The path that [save_data] writes to is the file name cut in
    two, with FFT between the parts.  The second part is empty, or it is
    a dot followed by characters among which there is neither a dot nor a
    slash, so FFT always lands in the last component of the path, before
    its last dot; a file name without any dot gets FFT at its end. *)
Theorem save_path_shape (format_range : R * R -> string)
    (a : list (Numpy.xreal * R)) (fname : string) (range : R * R)
    (window : string) (zeropad : bool) :
  (exists root ext,
      TSTS.path (snd (TSTS.save_data format_range a fname range window zeropad))
      = root ++ "FFT" ++ ext
      /\ root ++ ext = fname
      /\ (ext = ""
          \/ exists rest,
              ext = String extsep rest
              /\ ~ has_char extsep rest /\ ~ has_char sep rest))
  /\ (~ has_char extsep fname ->
      TSTS.path (snd (TSTS.save_data format_range a fname range window zeropad))
      = fname ++ "FFT").
Proof.
  rewrite Controller.save_data_path. split.
  - exists (fst (splitext fname)), (snd (splitext fname)).
    split; [reflexivity|]. split; [apply splitext_rejoin|].
    apply splitext_extension_shape.
  - intros Hno. rewrite (splitext_no_dot fname Hno). reflexivity.
Qed.

Lemma save_path_shape_witness :
  TSTS.path (snd (TSTS.save_data Scenario.render_range [] "trace" (0, 0)%R
                    "hanning" false))
  = "trace" ++ "FFT".
Proof.
  apply (save_path_shape Scenario.render_range [] "trace" (0, 0)%R "hanning" false).
  intros [i Hi].
  do 6 (destruct i as [|i]; [discriminate Hi|]). discriminate Hi.
Defined.

End Extensions.

(** ** The signal and its spectrum *)

Module Signal.
Import Numpy TSTS Readings RangeFilter ZeroPadding FrequencyAxis Engine.

Lemma spectrum_axis_independent (xs ys ys' window window' : list R) :
  fst (spectrum xs ys window) = fst (spectrum xs ys' window').
Proof. unfold spectrum. destruct (List.length xs); reflexivity. Qed.

(** X17.  Changing the window never changes whether the engine returns,
    nor the time sequences, nor the frequencies, nor the number of
    magnitudes: the window name only enters the magnitudes. *)
Theorem window_keeps_frequency_axis
    (data : dataset) (lo hi : R) (w1 w2 : string) (zeropad : bool)
    (time_xs time_ys : list R) (spec_xs : list xreal) (spec_ys : list R) :
  calc_fft (Some data) (lo, hi) w1 zeropad = Ok (time_xs, time_ys, spec_xs, spec_ys) ->
  exists spec_ys',
    calc_fft (Some data) (lo, hi) w2 zeropad = Ok (time_xs, time_ys, spec_xs, spec_ys')
    /\ List.length spec_ys' = List.length spec_ys.
Proof.
  intros H.
  pose proof (Outputs.columns_same_length (selected lo hi data)) as [Hs0 Hs1].
  destruct zeropad.
  - destruct (selected lo hi data) as [|s sel] eqn:Hsel.
    { rewrite (calc_fft_padded_empty data lo hi w1 Hsel) in H. discriminate. }
    rewrite <- Hsel in *.
    assert (Hne : column0 (selected lo hi data) <> [])
      by (apply column0_nonempty; rewrite Hsel; discriminate).
    rewrite (calc_fft_padded data lo hi w1 Hne) in H.
    rewrite (calc_fft_padded data lo hi w2 Hne).
    injection H as <- <- <- <-.
    eexists. split.
    + do 2 f_equal. f_equal. apply spectrum_axis_independent.
    + rewrite !spectrum_lengths;
        try apply Windowing.calc_window_length;
        try (rewrite !length_app, length_rev, linspace_length, repeat_length; congruence).
      apply f_equal. apply spectrum_axis_independent.
  - rewrite calc_fft_unpadded in H. rewrite calc_fft_unpadded.
    injection H as <- <- <- <-.
    eexists. split.
    + do 2 f_equal. f_equal. apply spectrum_axis_independent.
    + rewrite !spectrum_lengths;
        try apply Windowing.calc_window_length; try congruence.
      apply f_equal. apply spectrum_axis_independent.
Qed.

Lemma window_keeps_frequency_axis_witness :
  exists y1 y2 spec_ys',
    calc_fft (Some Scenario.five_samples) (-1, 5) "hanning" false
    = Ok (Scenario.five_times, Scenario.five_values,
          [Fin (1 / 2); Fin (1 / 4)], [y1; y2])
    /\ calc_fft (Some Scenario.five_samples) (-1, 5) "blackman" false
       = Ok (Scenario.five_times, Scenario.five_values,
             [Fin (1 / 2); Fin (1 / 4)], spec_ys').
Proof.
  destruct (five_samples_frequencies "hanning") as (y1 & y2 & H).
  destruct (window_keeps_frequency_axis _ _ _ _ "blackman" _ _ _ _ _ H)
    as (spec_ys' & H' & _).
  exists y1, y2, spec_ys'. split; assumption.
Defined.

Lemma multiply_scale (c : R) (ys window : list R) :
  multiply (map (Rmult c) ys) window = map (Rmult c) (multiply ys window).
Proof.
  revert window; induction ys as [|y ys IH]; intros [|w window]; simpl;
    try reflexivity.
  rewrite IH. f_equal. ring.
Qed.

Lemma dft_sum_scale (c : R) (n k m : nat) (a : list R) :
  dft_sum n k m (map (Rmult c) a) = cscale c (dft_sum n k m a).
Proof.
  revert m; induction a as [|x a IH]; intros m; simpl.
  - unfold cscale. simpl. f_equal; ring.
  - rewrite IH. unfold cscale, cadd, twiddle. cbn [fst snd]. f_equal; ring.
Qed.

Lemma fft_scale (c : R) (a : list R) :
  fft (map (Rmult c) a) = map (cscale c) (fft a).
Proof.
  unfold fft. rewrite length_map, map_map.
  apply map_ext. intros k. apply dft_sum_scale.
Qed.

Lemma compress_map {A B : Type} (f : A -> B) (mask : list bool) (l : list A) :
  compress mask (map f l) = map f (compress mask l).
Proof.
  revert l; induction mask as [|b mask IH]; intros [|x l]; simpl; try reflexivity.
  destruct b; simpl; rewrite IH; reflexivity.
Qed.

Lemma absolute_scale (c : R) (l : list complex) :
  absolute (map (cscale c) l) = map (Rmult (Rabs c)) (absolute l).
Proof.
  unfold absolute. rewrite !map_map. apply map_ext. intros [re im].
  unfold cscale. cbn [fst snd].
  replace (c * re * (c * re) + c * im * (c * im))
    with (Rsqr c * (re * re + im * im)) by (unfold Rsqr; ring).
  rewrite sqrt_mult_alt by apply Rle_0_sqr.
  rewrite sqrt_Rsqr_abs. reflexivity.
Qed.

Lemma spectrum_scale (c : R) (xs ys window : list R) :
  spectrum xs (map (Rmult c) ys) window
  = (fst (spectrum xs ys window), map (Rmult (Rabs c)) (snd (spectrum xs ys window))).
Proof.
  unfold spectrum. destruct (List.length xs); [reflexivity|].
  cbn [fst snd].
  rewrite multiply_scale, fft_scale, compress_map, absolute_scale. reflexivity.
Qed.

Lemma selected_scale (c lo hi : R) (data : dataset) :
  selected lo hi (scale_values c data) = scale_values c (selected lo hi data).
Proof.
  unfold selected, scale_values.
  induction data as [|s data IH]; simpl; [reflexivity|].
  unfold strictly_inside at 1. cbn [fst]. fold (strictly_inside lo hi s).
  destruct (strictly_inside lo hi s); simpl; rewrite IH; reflexivity.
Qed.

Lemma column0_scale (c : R) (d : dataset) : column0 (scale_values c d) = column0 d.
Proof. unfold column0, scale_values. rewrite map_map. reflexivity. Qed.

Lemma column1_scale (c : R) (d : dataset) :
  column1 (scale_values c d) = map (Rmult c) (column1 d).
Proof. unfold column1, scale_values. rewrite !map_map. reflexivity. Qed.

Lemma calc_window_scale (windowtype : string) (c : R) (ys : list R) :
  calc_window windowtype (map (Rmult c) ys) = calc_window windowtype ys.
Proof. unfold calc_window. rewrite length_map. reflexivity. Qed.

(** X18.  Multiplying every amplitude of the dataset by a constant c
    leaves the frequencies as they are and multiplies every magnitude by
    the absolute value of c, for every range, window and padding
    setting for which the engine returns. *)
Theorem calc_fft_scales_with_signal
    (data : dataset) (lo hi c : R) (windowtype : string) (zeropad : bool)
    (time_xs time_ys : list R) (spec_xs : list xreal) (spec_ys : list R) :
  calc_fft (Some data) (lo, hi) windowtype zeropad
  = Ok (time_xs, time_ys, spec_xs, spec_ys) ->
  calc_fft (Some (scale_values c data)) (lo, hi) windowtype zeropad
  = Ok (time_xs, map (Rmult c) time_ys, spec_xs, map (Rmult (Rabs c)) spec_ys).
Proof.
  intros H. destruct zeropad.
  - assert (Hne : column0 (selected lo hi data) <> []).
    { apply column0_nonempty. intros Hsel.
      rewrite (calc_fft_padded_empty data lo hi windowtype Hsel) in H. discriminate. }
    rewrite (calc_fft_padded data lo hi windowtype Hne) in H.
    injection H as <- <- <- <-.
    rewrite calc_fft_padded
      by (rewrite selected_scale, column0_scale; exact Hne).
    rewrite selected_scale, !column0_scale, !column1_scale.
    set (n := num_add (List.length (column0 (selected lo hi data)))).
    replace (map (Rmult c) (column1 (selected lo hi data)) ++ repeat 0 n)
      with (map (Rmult c) (column1 (selected lo hi data) ++ repeat 0 n)).
    2:{ rewrite map_app. f_equal.
        clear. induction n as [|n IH]; simpl; [reflexivity|].
        rewrite IH. f_equal. ring. }
    rewrite calc_window_scale, spectrum_scale. reflexivity.
  - rewrite calc_fft_unpadded in H. injection H as <- <- <- <-.
    rewrite calc_fft_unpadded.
    rewrite selected_scale, !column0_scale, !column1_scale.
    rewrite calc_window_scale, spectrum_scale. reflexivity.
Qed.

Lemma calc_fft_scales_with_signal_witness :
  exists y1 y2,
    calc_fft (Some (scale_values (-3) Scenario.five_samples)) (-1, 5) "hanning" false
    = Ok (Scenario.five_times, map (Rmult (-3)) Scenario.five_values,
          [Fin (1 / 2); Fin (1 / 4)], map (Rmult (Rabs (-3))) [y1; y2]).
Proof.
  destruct (five_samples_frequencies "hanning") as (y1 & y2 & H).
  exists y1, y2.
  apply (calc_fft_scales_with_signal _ _ _ (-3) _ _ _ _ _ _ H).
Defined.

End Signal.

(** ** What a raising handler leaves behind *)

Module Failures.
Import Numpy TSTS Readings RangeFilter Engine AxisLimits Controller.

Lemma map_fst_combine {A B : Type} (l : list A) (l' : list B) :
  List.length l' = List.length l -> map fst (combine l l') = l.
Proof.
  revert l'; induction l as [|x l IH]; intros [|y l'] H; simpl in *;
    try reflexivity; try discriminate.
  rewrite IH by lia. reflexivity.
Qed.

Lemma repeat_PInf_not_finite (k : nat) :
  (1 <= k)%nat -> ~ Forall finite (repeat PInf k).
Proof.
  intros Hk H. destruct k as [|k]; [lia|].
  inversion H as [|v l Hv _]; subst. exact Hv.
Qed.

Section Keys.

Variable format_range : R * R -> string.

(** X19.  With padding on and a dataset loaded, selecting a range that
    keeps no sample raises an [IndexError] after the range is stored:
    the session keeps the new range together with the spectrum computed
    for the old one.  The save key pressed next writes the rows of that
    old spectrum under a header that names the new range. *)
Theorem save_after_failed_selection (d : dialog) (st : session) (ds : dataset)
    (lo hi : R) :
  data st = Some ds -> zeropad_button st = true -> selected lo hi ds = [] ->
  onselect lo hi st = Raise (IndexError, set_fft_range (lo, hi) st)
  /\ exists st2 call,
       press format_range "enter" d (session_after (onselect lo hi st))
       = Ok (st2, [Savetxt call])
       /\ map snd (rows call) = map snd (spec_data st)
       /\ map fst (rows call) = map (fun f => xdivide f 1000000) (map fst (spec_data st))
       /\ occurs_in (format_range (lo, hi)) (header call).
Proof.
  intros Hd Hz Hsel.
  assert (Hr : onselect lo hi st = Raise (IndexError, set_fft_range (lo, hi) st)).
  { unfold onselect. apply update_plot_engine_raises.
    cbn [data fft_range window_button zeropad_button set_fft_range].
    rewrite Hd, Hz. apply calc_fft_padded_empty. exact Hsel. }
  split; [exact Hr|].
  rewrite Hr. cbn [session_after].
  eexists _, _. split; [apply press_enter|].
  cbn [spec_data filename fft_range window_button zeropad_button set_fft_range].
  pose proof (save_data_call format_range (spec_data st) (filename st) (lo, hi)
                (window_button st) (zeropad_button st)) as (H1 & H2 & H3 & _).
  repeat split; assumption.
Qed.

End Keys.

(** X20.  With padding off and rescaling on, selecting a range whose
    samples, three or more, all carry one time raises a [ValueError]:
    every frequency is infinite and the limits asked of the frequency
    axis are refused.  The spectrum is stored before that: the session
    keeps (N-1)//2 rows with the frequency +inf. *)
Theorem selection_without_span_raises (st : session) (ds : dataset) (lo hi : R) :
  data st = Some ds -> zeropad_button st = false -> rescale_button st = true ->
  (3 <= List.length (selected lo hi ds))%nat ->
  py_min (column0 (selected lo hi ds)) = py_max (column0 (selected lo hi ds)) ->
  exists st',
    onselect lo hi st = Raise (ValueError, st')
    /\ fft_range st' = (lo, hi)
    /\ map fst (spec_data st')
       = repeat PInf ((List.length (selected lo hi ds) - 1) / 2)
    /\ (1 <= (List.length (selected lo hi ds) - 1) / 2)%nat.
Proof.
  intros Hd Hz Hs Hn Hspan.
  pose proof (Outputs.columns_same_length (selected lo hi ds)) as [Hc0 Hc1].
  set (xs := column0 (selected lo hi ds)) in *.
  set (ys := column1 (selected lo hi ds)) in *.
  assert (Hne : xs <> []) by (intros E; rewrite E in Hc0; simpl in Hc0; lia).
  assert (Hk : (1 <= (List.length (selected lo hi ds) - 1) / 2)%nat)
    by (apply Nat.div_le_lower_bound; lia).
  assert (Hfreq : fst (spectrum xs ys (calc_window (window_button st) ys))
                  = repeat PInf ((List.length (selected lo hi ds) - 1) / 2)).
  { rewrite FrequencyAxis.spectrum_frequencies_no_span by assumption.
    rewrite Hc0. reflexivity. }
  set (st0 := set_fft_range (lo, hi) st).
  assert (H : calc_fft (data st0) (fft_range st0) (window_button st0)
                (zeropad_button st0)
              = Ok (column0 ds, column1 ds,
                    fst (spectrum xs ys (calc_window (window_button st) ys)),
                    snd (spectrum xs ys (calc_window (window_button st) ys)))).
  { cbn [st0 data fft_range window_button zeropad_button set_fft_range].
    rewrite Hd, Hz. apply calc_fft_unpadded. }
  destruct (update_plot_refused false st0 _ _ _ _ H) as [st' Hr].
  - cbn [st0 rescale_button set_fft_range]. rewrite Hs. reflexivity.
  - rewrite Hfreq. apply repeat_PInf_not_finite. exact Hk.
  - exists st'. unfold onselect. fold st0. split; [exact Hr|].
    pose proof (update_plot_frame false st0) as F.
    pose proof (update_plot_stores false st0 _ _ _ _ H) as (S & _).
    rewrite Hr in F, S. cbv zeta in F. cbn [session_after] in F, S.
    destruct F as (_ & _ & Fr & _).
    split; [rewrite Fr; reflexivity|].
    split; [|exact Hk].
    rewrite S, map_fst_combine; [exact Hfreq|].
    apply FrequencyAxis.spectrum_lengths;
      [congruence | apply Windowing.calc_window_length].
Qed.

Lemma selection_without_span_raises_witness :
  exists st',
    onselect 0 2 Scenario.same_time_session = Raise (ValueError, st')
    /\ map fst (spec_data st') = [PInf].
Proof.
  assert (Hsel : selected 0 2 Scenario.same_time_samples = Scenario.same_time_samples).
  { unfold selected, Scenario.same_time_samples. cbn [filter].
    decide_inside. reflexivity. }
  destruct (selection_without_span_raises Scenario.same_time_session
              Scenario.same_time_samples 0 2 eq_refl eq_refl eq_refl)
    as (st' & Hr & _ & Hf & _).
  - rewrite Hsel. simpl. lia.
  - rewrite Hsel. cbn [Scenario.same_time_samples column0 map fst py_min py_max fold_left].
    unfold Rmin, Rmax. repeat destruct (Rle_dec _ _); lra.
  - exists st'. split; [exact Hr|]. rewrite Hf, Hsel. reflexivity.
Defined.

Lemma save_after_failed_selection_witness :
  onselect 10 20 (set_zeropad_button true Scenario.selected_session)
  = Raise (IndexError,
           set_fft_range (10, 20) (set_zeropad_button true Scenario.selected_session)).
Proof.
  apply (save_after_failed_selection Scenario.render_range Scenario.loaded
           (set_zeropad_button true Scenario.selected_session)
           Scenario.five_samples 10 20 eq_refl eq_refl).
  apply selected_none_of_five.
Defined.

End Failures.
